(** * bUnitTests.h (v1.3.0): registry, runner, reporter and assertion macro

    A shallow embedding of the single-header unit testing framework.  The
    process state that the header keeps in statics and in [std::cout] is made
    explicit and threaded through a small state-and-exception monad, so that
    every function below can be read side by side with its C++ original. *)

From Stdlib Require Import Ascii DecimalString.
From stdpp Require Import gmap strings list fin_maps.

Local Open Scope N_scope.

(** ** [size_t] *)

Module SizeT.

(** [size_t] is a 64-bit unsigned integer; arithmetic wraps around. *)
Definition modulus : N := 2 ^ 64.

Definition wrap (n : N) : N := n mod modulus.

Definition add (a b : N) : N := wrap (a + b).

(** [x++] / [x + 1] *)
Definition succ (a : N) : N := add a 1.

(** [std::string::npos], i.e. [static_cast<size_t>(-1)] *)
Definition npos : N := modulus - 1.

End SizeT.

(** ** Text *)

Module Text.

(** The two control characters the header prints. *)
Definition LF : string := String (Ascii.ascii_of_nat 10) EmptyString.
Definition TAB : string := String (Ascii.ascii_of_nat 9) EmptyString.

(** [std::to_string] of a non-negative integer, and [operator<<] of a
    [size_t]: plain decimal digits. *)
Definition to_string (n : N) : string := NilEmpty.string_of_uint (N.to_uint n).

(** [s.find_last_of(c)]: index of the last occurrence of [c], or [npos]. *)
Fixpoint find_last_of_from (i : N) (s : string) (c : ascii) (found : N) : N :=
  match s with
  | EmptyString => found
  | String a s' =>
      find_last_of_from (SizeT.succ i) s' c (if Ascii.eqb a c then i else found)
  end.

Definition find_last_of (s : string) (c : ascii) : N :=
  find_last_of_from 0 s c SizeT.npos.

(** [s.substr(pos)]: the characters from [pos] to the end; [None] stands for
    the [std::out_of_range] that is thrown when [pos > s.size()]. *)
Fixpoint substr_nat (s : string) (pos : nat) {struct pos} : option string :=
  match pos, s with
  | O, _ => Some s
  | S pos', String _ s' => substr_nat s' pos'
  | S _, EmptyString => None
  end.

Definition substr (s : string) (pos : N) : option string :=
  substr_nat s (N.to_nat pos).

(** Does [needle] occur somewhere in [hay]? *)
Definition occurs (needle hay : string) : bool :=
  match String.index 0 needle hay with Some _ => true | None => false end.

End Text.

(** ** Exceptions *)

(** What a [throw] inside a test function can send up the stack, as far as
    the handler [catch (const std::exception &e)] can tell the cases apart. *)
Inductive thrown : Type :=
  | std_exception (what : string)
      (** an object of type [std::exception] itself: what [bTEST_ASSERT] throws *)
  | std_derived (class_name : string) (what : string)
      (** an object of a class derived from [std::exception] *)
  | non_std (description : string).
      (** anything else, e.g. [throw 42;] *)

(** Does [catch (const std::exception &e)] match, and if so what is [e.what()]? *)
Definition catch_std_exception (e : thrown) : option string :=
  match e with
  | std_exception what => Some what
  | std_derived _ what => Some what
  | non_std _ => None
  end.

(** The recognised failure signal is the exception that the assertion macro
    raises: a [std::exception] proper, carrying the location text. *)
Definition is_failure_signal (e : thrown) : bool :=
  match e with
  | std_exception _ => true
  | _ => false
  end.

(** How a call through a [bTestFnType] function pointer ends. *)
Inductive completion : Type :=
  | returns
  | throws (e : thrown).

(** ** The assertion macro *)

Module Assert.

(** [bFILE_PATH_SEPARATOR]: ['\\'] under [_WIN32], ['/'] elsewhere. *)
Definition bFILE_PATH_SEPARATOR (win32 : bool) : ascii :=
  if win32 then "\"%char else "/"%char.

(** [bTEST_ASSERT(expr)] expanded at [__FILE__ = file], [__LINE__ = line]. *)
Definition bTEST_ASSERT (win32 : bool) (file : string) (line : N) (expr : bool)
  : completion :=
  if negb expr then
    let errorString := file +:+ ":" +:+ Text.to_string line in
    let lastSeparator := Text.find_last_of errorString (bFILE_PATH_SEPARATOR win32) in
    match Text.substr errorString
            (if lastSeparator =? SizeT.npos then 0 else lastSeparator) with
    | Some errorString' => throws (std_exception errorString')
    | None => throws (std_derived "std::out_of_range" "invalid string position")
    end
  else returns.

(** The part of [path] after its last separator, if it has one. *)
Fixpoint after_last (sep : ascii) (path : string) : option string :=
  match path with
  | EmptyString => None
  | String a rest =>
      match after_last sep rest with
      | Some tail => Some tail
      | None => if Ascii.eqb a sep then Some rest else None
      end
  end.

(** The file name without its directories: the part of [path] after its
    last separator, the whole [path] when it has none.  This definition
    follows the wording of the specification, not the macro. *)
Definition basename (sep : ascii) (path : string) : string :=
  default path (after_last sep path).

Definition location_descriptor (sep : ascii) (file : string) (line : N) : string :=
  basename sep file +:+ ":" +:+ Text.to_string line.

End Assert.

(** ** Test functions and the process state *)

(** A test is reached through a pointer to a function without arguments
    and without result ([bTestFnType]).  The functions described here are
    those whose dealings with [std::cout] are insertions of characters: of
    such a call the runner observes the text sent to [std::cout] and the way
    the call ends.  A function that changes the formatting flags, the state
    or the buffer of [std::cout] is not among them. *)
Record bTestFnType : Type := TestFn {
  prints : string;
  ends : completion;
}.

(** The stream buffers [std::cout] is pointed at in the course of a run:
    the buffer it had at start-up, the buffer of the log file stream
    [g_testsLog], and [nullptr]. *)
Inductive streambuf : Type := console_buf | log_buf | null_buf.

(** The statics of the implementation part of the header, the two sinks, and
    two observation logs: one of the [set_rdbuf] calls and one of the calls
    made through test function pointers.  The logs are never read by the
    program; they let statements speak about what was called. *)
Record process : Type := Process {
  s_tests : gmap string (gmap string bTestFnType);
  g_successes : N;
  first : bool;
  numTests : N;
  cout_rdbuf : streambuf;
  console : string;
  g_testsLog : string;
  set_rdbuf_calls : list streambuf;
  test_calls : list (string * string * bTestFnType);
}.

Definition with_s_tests (v : gmap string (gmap string bTestFnType)) (p : process) :=
  Process v (g_successes p) (first p) (numTests p) (cout_rdbuf p) (console p)
          (g_testsLog p) (set_rdbuf_calls p) (test_calls p).
Definition with_g_successes (v : N) (p : process) :=
  Process (s_tests p) v (first p) (numTests p) (cout_rdbuf p) (console p)
          (g_testsLog p) (set_rdbuf_calls p) (test_calls p).
Definition with_first (v : bool) (p : process) :=
  Process (s_tests p) (g_successes p) v (numTests p) (cout_rdbuf p) (console p)
          (g_testsLog p) (set_rdbuf_calls p) (test_calls p).
Definition with_numTests (v : N) (p : process) :=
  Process (s_tests p) (g_successes p) (first p) v (cout_rdbuf p) (console p)
          (g_testsLog p) (set_rdbuf_calls p) (test_calls p).
Definition with_cout_rdbuf (v : streambuf) (p : process) :=
  Process (s_tests p) (g_successes p) (first p) (numTests p) v (console p)
          (g_testsLog p) (set_rdbuf_calls p ++ [v]) (test_calls p).
Definition with_console (v : string) (p : process) :=
  Process (s_tests p) (g_successes p) (first p) (numTests p) (cout_rdbuf p) v
          (g_testsLog p) (set_rdbuf_calls p) (test_calls p).
Definition with_g_testsLog (v : string) (p : process) :=
  Process (s_tests p) (g_successes p) (first p) (numTests p) (cout_rdbuf p) (console p)
          v (set_rdbuf_calls p) (test_calls p).
Definition with_test_call (c : string * string * bTestFnType) (p : process) :=
  Process (s_tests p) (g_successes p) (first p) (numTests p) (cout_rdbuf p) (console p)
          (g_testsLog p) (set_rdbuf_calls p) (test_calls p ++ [c]).

(** The process as the loader leaves it before any dynamic initialiser ran. *)
Definition fresh_process : process :=
  Process ∅ 0 true 0 console_buf EmptyString EmptyString [] [].

(** ** Statements: state threading and stack unwinding *)

Inductive outcome (A : Type) : Type :=
  | Done (a : A) (p : process)
  | Unwinding (e : thrown) (p : process).
Arguments Done {A} a p.
Arguments Unwinding {A} e p.

Definition state_of {A} (o : outcome A) : process :=
  match o with Done _ p => p | Unwinding _ p => p end.

Definition Stmt (A : Type) : Type := process → outcome A.

Global Instance Stmt_ret : MRet Stmt := λ A a p, Done a p.

Global Instance Stmt_bind : MBind Stmt := λ A B k m p,
  match m p with
  | Done a p' => k a p'
  | Unwinding e p' => Unwinding e p'
  end.

Definition read {A} (f : process → A) : Stmt A := λ p, Done (f p) p.

Definition update (f : process → process) : Stmt unit := λ p, Done tt (f p).

(** [try { body } catch (const std::exception &e) { handler(e.what()) }] *)
Definition try_catch_std_exception {A} (body : Stmt A) (handler : string → Stmt A)
  : Stmt A := λ p,
  match body p with
  | Done a p' => Done a p'
  | Unwinding e p' =>
      match catch_std_exception e with
      | Some what => handler what p'
      | None => Unwinding e p'
      end
  end.

(** ** [std::cout] *)

(** Characters inserted into [std::cout] land in whatever buffer it currently
    points at.  With a null buffer they are dropped, which is how the header's
    changelog describes the [bTESTS_NO_LOG] build; it is not what C++
    promises, since [set_rdbuf] leaves the stream in its good state and an
    insertion of at least one character then goes through the null pointer.
    The runner itself inserts nothing while the buffer is null, so the case
    can only be met by the text of a test; [null_safe] below names the tests
    that stay clear of it, and what is stated about the text a run
    produces is stated for them. *)
Definition insert_chars (s : string) (p : process) : process :=
  match cout_rdbuf p with
  | console_buf => with_console (console p +:+ s) p
  | log_buf => with_g_testsLog (g_testsLog p +:+ s) p
  | null_buf => p
  end.

(** [std::cout << s] *)
Definition cout (s : string) : Stmt unit := update (insert_chars s).

(** [std::cout.set_rdbuf(sb)] *)
Definition set_rdbuf (sb : streambuf) : Stmt unit := update (with_cout_rdbuf sb).

(** [test()] for the entry [name] of [group] *)
Definition call (group name : string) (test : bTestFnType) : Stmt unit := λ p,
  let p' := insert_chars (prints test) (with_test_call (group, name, test) p) in
  match ends test with
  | returns => Done tt p'
  | throws e => Unwinding e p'
  end.

(** ** The implementation part of the header *)

Module ReturnValue.
(** [enum struct ReturnValue : int] *)
Definition pass : Z := 0%Z.
Definition fail : Z := (-1)%Z.
End ReturnValue.

Section Implementation.

(** Is the header compiled with [bTESTS_NO_LOG] defined? *)
Variable bTESTS_NO_LOG : bool.

(** The order in which a range-for visits a [std::unordered_map] is up to
    the standard library, so it is a parameter: one enumeration for the
    outer map (group name to tests) and one for the inner maps (test name
    to function pointer).  The parameter is a function of what the map
    holds, which describes the one registry a run works on; a library is
    free to visit two maps with the same entries but another history of
    insertions differently, so nothing is concluded from the order across
    two ways of building a registry. *)
Variable group_order :
  gmap string (gmap string bTestFnType) → list (string * gmap string bTestFnType).
Variable test_order : gmap string bTestFnType → list (string * bTestFnType).

(** [print_line_separator] *)
Definition print_line_separator : Stmt unit :=
  cout ("--------------------------------------------------------------------------------"
        +:+ Text.LF).

(** [get_number_of_tests], with its two function-local statics *)
Definition get_number_of_tests : Stmt N :=
  is_first ← read first;
  (if is_first : bool then
     tests ← read s_tests;
     update (λ p,
       with_numTests
         (foldl (λ n gt, SizeT.add n (N.of_nat (size (snd gt))))
                (numTests p) (group_order tests)) p) ;;
     update (with_first false)
   else mret tt) ;;
  read numTests.

(** [print_info] *)
Definition print_info : Stmt unit :=
  print_line_separator ;;
  cout ("INFO:" +:+ Text.TAB
        +:+ "If all tests pass (or no tests fail), the program will return success."
        +:+ Text.LF +:+ Text.TAB +:+ Text.TAB
        +:+ "Otherwise, it will return failure." +:+ Text.LF) ;;
  n ← get_number_of_tests;
  n' ← get_number_of_tests;
  groups ← read (λ p, N.of_nat (size (s_tests p)));
  cout ("INFO:" +:+ Text.TAB +:+ "Found " +:+ Text.to_string n +:+ " test"
        +:+ (if n' =? 1 then EmptyString else "s")
        +:+ " in " +:+ Text.to_string groups +:+ " group"
        +:+ (if groups =? 1 then "." +:+ Text.LF else "s." +:+ Text.LF)) ;;
  print_line_separator.

(** The announcement of a group at the top of the outer loop of [run_tests] *)
Definition announce_group (coutBuffer : streambuf) (group : string) : Stmt unit :=
  cout ("Group: '" +:+ group +:+ "'" +:+ Text.LF) ;;
  (if bTESTS_NO_LOG then mret tt
   else
     set_rdbuf log_buf ;;
     cout ("Group: '" +:+ group +:+ "'" +:+ Text.LF) ;;
     set_rdbuf coutBuffer).

(** The body of the inner loop of [run_tests], up to [idx++] *)
Definition run_test (coutBuffer : streambuf) (idx : N) (group name : string)
    (test : bTestFnType) : Stmt unit :=
  cout (Text.TAB +:+ "[" +:+ Text.to_string (SizeT.add idx 1) +:+ "] : '"
        +:+ name +:+ "' ") ;;
  (if bTESTS_NO_LOG then set_rdbuf null_buf
   else
     set_rdbuf log_buf ;;
     print_line_separator ;;
     cout ("Test '" +:+ name +:+ "' log:" +:+ Text.LF +:+ Text.LF)) ;;
  try_catch_std_exception
    (call group name test ;;
     (if bTESTS_NO_LOG then mret tt
      else cout (Text.LF +:+ "passed." +:+ Text.LF) ;; print_line_separator) ;;
     set_rdbuf coutBuffer ;;
     cout ("passed." +:+ Text.LF) ;;
     update (λ p, with_g_successes (SizeT.succ (g_successes p)) p))
    (λ what,
     (if bTESTS_NO_LOG then mret tt
      else
        cout (Text.LF +:+ "failed at '" +:+ what +:+ "'." +:+ Text.LF) ;;
        print_line_separator) ;;
     set_rdbuf coutBuffer ;;
     cout ("failed at '" +:+ what +:+ "'." +:+ Text.LF)).

(** The inner loop of [run_tests]; the result is [idx] after the loop. *)
Fixpoint for_tests (coutBuffer : streambuf) (group : string)
    (tests : list (string * bTestFnType)) (idx : N) : Stmt N :=
  match tests with
  | [] => mret idx
  | (name, test) :: rest =>
      run_test coutBuffer idx group name test ;;
      for_tests coutBuffer group rest (SizeT.succ idx)
  end.

(** The outer loop of [run_tests] *)
Fixpoint for_groups (coutBuffer : streambuf)
    (groups : list (string * gmap string bTestFnType)) (idx : N) : Stmt N :=
  match groups with
  | [] => mret idx
  | (group, tests) :: rest =>
      announce_group coutBuffer group ;;
      idx' ← for_tests coutBuffer group (test_order tests) idx;
      for_groups coutBuffer rest idx'
  end.

(** [run_tests] *)
Definition run_tests : Stmt unit :=
  coutBuffer ← read cout_rdbuf;
  cout ("RUNNING TESTS..." +:+ Text.LF) ;;
  tests ← read s_tests;
  for_groups coutBuffer (group_order tests) 0 ;;
  mret tt.

(** The text both halves of [print_summary] send to [std::cout] *)
Definition summary_block : Stmt unit :=
  print_line_separator ;;
  cout ("SUMMARY:" +:+ Text.LF) ;;
  passed ← read g_successes;
  total ← get_number_of_tests;
  cout (Text.TAB +:+ "Passed " +:+ Text.to_string passed +:+ " out of "
        +:+ Text.to_string total +:+ " tests." +:+ Text.LF) ;;
  print_line_separator.

(** [print_summary] *)
Definition print_summary : Stmt unit :=
  summary_block ;;
  (if bTESTS_NO_LOG then mret tt
   else
     coutBuffer ← read cout_rdbuf;
     set_rdbuf log_buf ;;
     summary_block ;;
     set_rdbuf coutBuffer).

(** [ben::tests::UnitTest::UnitTest(name, func, group)].  [at] throws
    [std::out_of_range] for a key that is absent. *)
Definition UnitTest (name : string) (func : bTestFnType) (group : string)
  : Stmt unit :=
  tests ← read s_tests;
  (if bool_decide (is_Some (tests !! group)) then mret tt
   else update (λ p, with_s_tests (<[group := ∅]> (s_tests p)) p)) ;;
  tests ← read s_tests;
  match tests !! group with
  | Some in_group =>
      update (with_s_tests (<[group := <[name := func]> in_group]> tests))
  | None => λ p, Unwinding (std_derived "std::out_of_range" "invalid unordered_map<K, T> key") p
  end.

(** [int main()] *)
Definition main : Stmt Z :=
  print_info ;;
  groups ← read (λ p, N.of_nat (size (s_tests p)));
  if groups =? 0 then mret ReturnValue.pass
  else
    run_tests ;;
    print_summary ;;
    passed ← read g_successes;
    total ← get_number_of_tests;
    mret (if passed =? total then ReturnValue.pass else ReturnValue.fail).

(** *** Test declarations and program start-up *)

(** One use of [bTEST_FUNCTION(fName)] or [bTEST_FUNCTION(fName, group)]:
    the name is the stringised [fName], the function is the body that
    follows the macro. *)
Record declaration : Type := Registration {
  decl_name : string;
  decl_body : bTestFnType;
  decl_group : option string;
}.

(** The constructor of the global object the macro defines; without a
    second macro argument the default argument of the [UnitTest]
    constructor supplies the group. *)
Definition bTEST_FUNCTION (d : declaration) : Stmt unit :=
  UnitTest (decl_name d) (decl_body d) (default "ungrouped" (decl_group d)).

(** Dynamic initialisation runs the constructors in some order. *)
Fixpoint static_init (ds : list declaration) : Stmt unit :=
  match ds with
  | [] => mret tt
  | d :: rest => bTEST_FUNCTION d ;; static_init rest
  end.

(** The whole test application, from process start. *)
Definition test_application (ds : list declaration) : outcome Z :=
  (static_init ds ;; main) fresh_process.

End Implementation.

(** ** Vocabulary for the statements *)

(** An entry of the registry: group, test name, function. *)
Definition entry : Type := string * string * bTestFnType.

Definition in_group (group : string) (nt : string * bTestFnType) : entry :=
  (group, nt.1, nt.2).

(** Does the call of this function return normally? *)
Definition passing (t : bTestFnType) : bool :=
  match ends t with returns => true | throws _ => false end.

(** Does the call end in a way the per-test handler deals with: a normal
    return, or an exception the [catch] clause matches? *)
Definition contained (t : bTestFnType) : bool :=
  match ends t with
  | returns => true
  | throws e => bool_decide (is_Some (catch_std_exception e))
  end.

(** In the build without log [run_test] points [std::cout] at [nullptr]
    with [set_rdbuf], which leaves the state of the stream as it is; a test
    that then inserts characters into [std::cout] makes the stream write
    through the null pointer, and the behaviour of the program is not
    defined from there on.  A test is safe in that respect when it inserts
    nothing in that build; the logging build sets no such limit. *)
Definition null_safe (bTESTS_NO_LOG : bool) (t : bTestFnType) : bool :=
  negb bTESTS_NO_LOG || bool_decide (prints t = EmptyString).

(** How many of the functions in a list of entries return normally. *)
Definition passes (l : list entry) : nat := length (filter (λ c, passing c.2 = true) l).

(** [n] applications of [x++] *)
Definition bumped (n : nat) (x : N) : N := Nat.iter n SizeT.succ x.

(** The progress text and the verdict text the runner prints for a test. *)
Definition progress_text (idx : N) (name : string) : string :=
  Text.TAB +:+ "[" +:+ Text.to_string (SizeT.add idx 1) +:+ "] : '" +:+ name +:+ "' ".

Definition passed_text : string := "passed." +:+ Text.LF.

Definition failed_text (what : string) : string :=
  "failed at '" +:+ what +:+ "'." +:+ Text.LF.

(** The verdict the runner prints for a test whose call it survives. *)
Definition verdict_text (test : bTestFnType) : string :=
  match ends test with
  | returns => passed_text
  | throws e =>
      match catch_std_exception e with
      | Some what => failed_text what
      | None => EmptyString
      end
  end.

(** The line [print_line_separator] prints. *)
Definition dashes : string :=
  "--------------------------------------------------------------------------------"
  +:+ Text.LF.

(** What the log file receives for one test when logging is compiled in:
    the banner, whatever the test printed, the verdict, a separator. *)
Definition logged_text (name : string) (test : bTestFnType) (verdict : string) : string :=
  dashes +:+ ("Test '" +:+ name +:+ "' log:" +:+ Text.LF +:+ Text.LF)
  +:+ prints test +:+ (Text.LF +:+ verdict) +:+ dashes.

(** The text of [print_info] and of one half of [print_summary]. *)
Definition info_text (n groups : N) : string :=
  dashes
  +:+ ("INFO:" +:+ Text.TAB
       +:+ "If all tests pass (or no tests fail), the program will return success."
       +:+ Text.LF +:+ Text.TAB +:+ Text.TAB
       +:+ "Otherwise, it will return failure." +:+ Text.LF)
  +:+ ("INFO:" +:+ Text.TAB +:+ "Found " +:+ Text.to_string n +:+ " test"
       +:+ (if n =? 1 then EmptyString else "s")
       +:+ " in " +:+ Text.to_string groups +:+ " group"
       +:+ (if groups =? 1 then "." +:+ Text.LF else "s." +:+ Text.LF))
  +:+ dashes.

Definition summary_text (passed total : N) : string :=
  dashes
  +:+ ("SUMMARY:" +:+ Text.LF)
  +:+ (Text.TAB +:+ "Passed " +:+ Text.to_string passed +:+ " out of "
       +:+ Text.to_string total +:+ " tests." +:+ Text.LF)
  +:+ dashes.

(** The buffer a test writes into while it runs. *)
Definition capture_buf (bTESTS_NO_LOG : bool) : streambuf :=
  if bTESTS_NO_LOG then null_buf else log_buf.

(** Everything but the sinks, the stream target and the success counter is
    left alone, and exactly the calls [ran] were made. *)
Record ran_tests (ran : list entry) (p p' : process) : Prop := RanTests {
  ran_s_tests : s_tests p' = s_tests p;
  ran_first : first p' = first p;
  ran_numTests : numTests p' = numTests p;
  ran_calls : test_calls p' = test_calls p ++ ran;
  ran_successes : g_successes p' = bumped (passes ran) (g_successes p);
}.

(** The registry a sequence of registrations builds, as a pure function. *)
Definition register (name : string) (func : bTestFnType) (group : string)
    (tests : gmap string (gmap string bTestFnType))
  : gmap string (gmap string bTestFnType) :=
  <[group := <[name := func]> (default ∅ (tests !! group))]> tests.

Definition registry_of (ds : list declaration)
  : gmap string (gmap string bTestFnType) :=
  foldl (λ tests d,
           register (decl_name d) (decl_body d) (default "ungrouped" (decl_group d)) tests)
        ∅ ds.

(** The process once the dynamic initialisers have filled the registry. *)
Definition loaded (tests : gmap string (gmap string bTestFnType)) : process :=
  with_s_tests tests fresh_process.

(** The number of registered tests: the sum of the sizes of the groups. *)
Definition registered_tests (tests : gmap string (gmap string bTestFnType)) : nat :=
  sum_list_with (λ gt, size gt.2) (map_to_list tests).

Section Schedule.

Variable bTESTS_NO_LOG : bool.
Variable group_order :
  gmap string (gmap string bTestFnType) → list (string * gmap string bTestFnType).
Variable test_order : gmap string bTestFnType → list (string * bTestFnType).

(** The entries in the order in which [run_tests] visits them. *)
Definition entries_of (groups : list (string * gmap string bTestFnType)) : list entry :=
  flat_map (λ gt, in_group gt.1 <$> test_order gt.2) groups.

Definition schedule (tests : gmap string (gmap string bTestFnType)) : list entry :=
  entries_of (group_order tests).

(** The value [get_number_of_tests] computes on its first call. *)
Definition counted (p : process) : N :=
  foldl (λ n gt, SizeT.add n (N.of_nat (size gt.2))) (numTests p)
        (group_order (s_tests p)).

(** [run_tests] interrupted where the inner loop is about to enter its body
    for the next test of [group]: the groups [done_groups] are finished and
    so are the tests [done_tests] of [group].  The result is [idx]. *)
Definition run_tests_upto (done_groups : list (string * gmap string bTestFnType))
    (group : string) (done_tests : list (string * bTestFnType)) : Stmt N :=
  coutBuffer ← read cout_rdbuf;
  cout ("RUNNING TESTS..." +:+ Text.LF) ;;
  idx ← for_groups bTESTS_NO_LOG test_order coutBuffer done_groups 0;
  announce_group bTESTS_NO_LOG coutBuffer group ;;
  for_tests bTESTS_NO_LOG coutBuffer group done_tests idx.

(** What is left of [run_tests] once the body of the inner loop has been
    left for that test: [idx++], the other tests of the group, the other
    groups. *)
Definition run_tests_after (coutBuffer : streambuf) (group : string)
    (rest_tests : list (string * bTestFnType))
    (rest_groups : list (string * gmap string bTestFnType)) (idx : N) : Stmt unit :=
  idx' ← for_tests bTESTS_NO_LOG coutBuffer group rest_tests (SizeT.succ idx);
  for_groups bTESTS_NO_LOG test_order coutBuffer rest_groups idx' ;;
  mret tt.

End Schedule.

(** ** Sample tests *)

(** The two tests of the README, a test that lets a [std::runtime_error]
    escape and one that throws an [int], and a small program made of
    them. *)
Module Samples.

Definition one_is_odd : bTestFnType :=
  TestFn EmptyString (Assert.bTEST_ASSERT false "tests/test_1.cpp" 5 (1 mod 2 =? 1)).

Definition one_is_even : bTestFnType :=
  TestFn ("Some output" +:+ Text.LF)
         (Assert.bTEST_ASSERT false "tests/test_1.cpp" 12 (1 mod 2 =? 0)).

Definition parses : bTestFnType :=
  TestFn "parsing" (throws (std_derived "std::runtime_error" "unexpected token")).

Definition throws_int : bTestFnType :=
  TestFn EmptyString (throws (non_std "int")).

Definition program : list declaration :=
  [ Registration "one_is_odd" one_is_odd None;
    Registration "one_is_even" one_is_even (Some "example group");
    Registration "parses" parses (Some "example group");
    Registration "two_is_even" one_is_odd (Some "example group") ].

Definition registry : gmap string (gmap string bTestFnType) := registry_of program.

Definition ungrouped : gmap string bTestFnType := default ∅ (registry !! "ungrouped").

Definition example_group : gmap string bTestFnType :=
  default ∅ (registry !! "example group").

(** The process when [run_tests], visiting the maps in the order of
    [map_to_list], is about to run the first, the second and the third test
    of the example group. *)
Definition before_one_is_even : process :=
  state_of (run_tests_upto false map_to_list [("ungrouped", ungrouped)]
              "example group" [] (loaded registry)).

Definition before_two_is_even : process :=
  state_of (run_tests_upto false map_to_list [("ungrouped", ungrouped)]
              "example group" [("one_is_even", one_is_even)] (loaded registry)).


End Samples.

(** ** Vocabulary for the registry after start-up *)

(** The pair under which a declaration is registered: its group, which is
    [ungrouped] when the macro got no second argument, and its name. *)
Definition decl_key (d : declaration) : string * string :=
  (default "ungrouped" (decl_group d), decl_name d).

(** The function of the last declaration of [ds] made for a pair. *)
Fixpoint last_declared (ds : list declaration) (group name : string)
  : option bTestFnType :=
  match ds with
  | [] => None
  | d :: rest =>
      match last_declared rest group name with
      | Some func => Some func
      | None =>
          if bool_decide (decl_key d = (group, name)) then Some (decl_body d) else None
      end
  end.

(** [get_tests().at(group).at(name)], with [None] for a missing key. *)
Definition registry_lookup (tests : gmap string (gmap string bTestFnType))
    (group name : string) : option bTestFnType :=
  tests !! group ≫= λ in_grp, in_grp !! name.

(** The pairs a list of declarations names. *)
Definition declared_keys (ds : list declaration) : gset (string * string) :=
  list_to_set (decl_key <$> ds).

(** ** Transcripts *)

(** What a complete pass of [run_tests] leaves on the console and in the
    log, and which buffers it hands to [set_rdbuf], written as functions of
    the lists the two loops walk through. *)
Section Transcript.

Variable bTESTS_NO_LOG : bool.
Variable test_order : gmap string bTestFnType → list (string * bTestFnType).

(** The announcement of a group. *)
Definition group_text (group : string) : string :=
  "Group: '" +:+ group +:+ "'" +:+ Text.LF.

(** A text that reaches the log only when logging is compiled in. *)
Definition when_logging (text : string) : string :=
  if bTESTS_NO_LOG then EmptyString else text.

(** Console: for each test its progress text and its verdict, the tests
    being numbered on from [idx]. *)
Fixpoint tests_console (tests : list (string * bTestFnType)) (idx : N) : string :=
  match tests with
  | [] => EmptyString
  | (name, test) :: rest =>
      progress_text idx name +:+ verdict_text test
      +:+ tests_console rest (SizeT.succ idx)
  end.

(** Log: for each test the banner, what the test printed, the verdict and
    a separator. *)
Fixpoint tests_log (tests : list (string * bTestFnType)) : string :=
  match tests with
  | [] => EmptyString
  | (name, test) :: rest =>
      logged_text name test (verdict_text test) +:+ tests_log rest
  end.

Fixpoint groups_console (groups : list (string * gmap string bTestFnType)) (idx : N)
  : string :=
  match groups with
  | [] => EmptyString
  | (group, tests) :: rest =>
      group_text group +:+ tests_console (test_order tests) idx
      +:+ groups_console rest (bumped (length (test_order tests)) idx)
  end.

Fixpoint groups_log (groups : list (string * gmap string bTestFnType)) : string :=
  match groups with
  | [] => EmptyString
  | (group, tests) :: rest =>
      group_text group +:+ tests_log (test_order tests) +:+ groups_log rest
  end.

(** The arguments of the [set_rdbuf] calls: a redirection and a restoration
    around the announcement of a group in the log and around every test. *)
Definition tests_redirections (coutBuffer : streambuf)
    (tests : list (string * bTestFnType)) : list streambuf :=
  flat_map (λ _, [capture_buf bTESTS_NO_LOG; coutBuffer]) tests.

Fixpoint groups_redirections (coutBuffer : streambuf)
    (groups : list (string * gmap string bTestFnType)) : list streambuf :=
  match groups with
  | [] => []
  | (group, tests) :: rest =>
      (if bTESTS_NO_LOG then [] else [log_buf; coutBuffer])
      ++ tests_redirections coutBuffer (test_order tests)
      ++ groups_redirections coutBuffer rest
  end.

(** The effect of a stretch of [run_tests] that comes to its end, on the
    console, the log and the record of [set_rdbuf] calls. *)
Record printed (on_console in_log : string) (redirections : list streambuf)
    (p p' : process) : Prop := Printed {
  printed_console : console p' = console p +:+ on_console;
  printed_log : g_testsLog p' = g_testsLog p +:+ when_logging in_log;
  printed_redirections : set_rdbuf_calls p' = set_rdbuf_calls p ++ redirections;
  printed_rdbuf : cout_rdbuf p' = console_buf;
}.

End Transcript.

(** ** Vocabulary for invariants *)

(** [m] keeps [I]: from a state in which [I] holds, [m] ends, normally or by
    an exception, in a state in which [I] holds. *)
Definition preserves {A} (I : process → Prop) (m : Stmt A) : Prop :=
  ∀ p, I p → I (state_of (m p)).

(** [I] is kept by each of the elementary changes the implementation makes
    to the process, [set_rdbuf] being called with an [allowed] buffer only,
    and the buffer [std::cout] points at while [I] holds is [allowed]. *)
Record stable (I : process → Prop) (allowed : streambuf → Prop) : Prop := Stable {
  stable_chars : ∀ text p, I p → I (insert_chars text p);
  stable_set_rdbuf : ∀ sb p, allowed sb → I p → I (with_cout_rdbuf sb p);
  stable_call : ∀ c p, I p → I (with_test_call c p);
  stable_successes : ∀ v p, I p → I (with_g_successes v p);
  stable_numTests : ∀ v p, I p → I (with_numTests v p);
  stable_first : ∀ v p, I p → I (with_first v p);
  stable_saved : ∀ p, I p → allowed (cout_rdbuf p);
}.

(** ** The first version of the header (include/bUnitTests.h) *)

(** The header as it was before logging and groups were added: one map
    from test names to functions, and [std::cout] left alone, so that what a
    test prints appears on the console in the middle of the report. *)
Module V1_0.

Record process : Type := Process {
  s_tests : gmap string bTestFnType;
  g_successes : N;
  console : string;
  test_calls : list (string * bTestFnType);
}.

Definition with_s_tests (v : gmap string bTestFnType) (p : process) : process :=
  Process v (g_successes p) (console p) (test_calls p).
Definition with_g_successes (v : N) (p : process) : process :=
  Process (s_tests p) v (console p) (test_calls p).
Definition with_console (v : string) (p : process) : process :=
  Process (s_tests p) (g_successes p) v (test_calls p).
Definition with_test_call (c : string * bTestFnType) (p : process) : process :=
  Process (s_tests p) (g_successes p) (console p) (test_calls p ++ [c]).

Definition fresh_process : process := Process ∅ 0 EmptyString [].

Inductive outcome (A : Type) : Type :=
  | Done (a : A) (p : process)
  | Unwinding (e : thrown) (p : process).
Arguments Done {A} a p.
Arguments Unwinding {A} e p.

Definition state_of {A} (o : outcome A) : process :=
  match o with Done _ p => p | Unwinding _ p => p end.

Definition Stmt (A : Type) : Type := process → outcome A.

#[global] Instance Stmt_ret : MRet Stmt := λ A a p, Done a p.

#[global] Instance Stmt_bind : MBind Stmt := λ A B k m p,
  match m p with
  | Done a p' => k a p'
  | Unwinding e p' => Unwinding e p'
  end.

Definition read {A} (f : process → A) : Stmt A := λ p, Done (f p) p.

Definition update (f : process → process) : Stmt unit := λ p, Done tt (f p).

(** [try { body } catch (const std::exception &e) { handler(e.what()) }] *)
Definition try_catch_std_exception {A} (body : Stmt A) (handler : string → Stmt A)
  : Stmt A := λ p,
  match body p with
  | Done a p' => Done a p'
  | Unwinding e p' =>
      match catch_std_exception e with
      | Some what => handler what p'
      | None => Unwinding e p'
      end
  end.

(** [std::cout << s]: the stream is never redirected in this version. *)
Definition cout (s : string) : Stmt unit :=
  update (λ p, with_console (console p +:+ s) p).

(** The call through the function pointer of the entry [name] *)
Definition call (name : string) (test : bTestFnType) : Stmt unit := λ p,
  let p' := with_console (console p +:+ prints test) (with_test_call (name, test) p) in
  match ends test with
  | returns => Done tt p'
  | throws e => Unwinding e p'
  end.

Section Implementation.

(** The order in which a range-for visits the map. *)
Variable test_order : gmap string bTestFnType → list (string * bTestFnType).

(** [print_line_separator] *)
Definition print_line_separator : Stmt unit :=
  cout ("--------------------------------------------------------------------------------"
        +:+ Text.LF).

(** [print_info] *)
Definition print_info : Stmt unit :=
  print_line_separator ;;
  cout ("INFO:" +:+ Text.TAB
        +:+ "If all tests pass (or no tests fail), the program will return success."
        +:+ Text.LF +:+ Text.TAB +:+ Text.TAB
        +:+ "Otherwise, it will return failure." +:+ Text.LF) ;;
  n ← read (λ p, N.of_nat (size (s_tests p)));
  cout ("INFO:" +:+ Text.TAB +:+ "Found " +:+ Text.to_string n +:+ " test"
        +:+ (if n =? 1 then "." +:+ Text.LF else "s." +:+ Text.LF)) ;;
  print_line_separator.

(** The body of the loop of [run_tests], up to [idx++] *)
Definition run_test (idx : N) (name : string) (test : bTestFnType) : Stmt unit :=
  cout (Text.TAB +:+ "[" +:+ Text.to_string (SizeT.add idx 1) +:+ "] : '"
        +:+ name +:+ "' ") ;;
  try_catch_std_exception
    (call name test ;;
     cout ("passed." +:+ Text.LF) ;;
     update (λ p, with_g_successes (SizeT.succ (g_successes p)) p))
    (λ what, cout ("failed at '" +:+ what +:+ "'." +:+ Text.LF)).

(** The loop of [run_tests]; the result is [idx] after the loop. *)
Fixpoint for_tests (tests : list (string * bTestFnType)) (idx : N) : Stmt N :=
  match tests with
  | [] => mret idx
  | (name, test) :: rest =>
      run_test idx name test ;;
      for_tests rest (SizeT.succ idx)
  end.

(** [run_tests] *)
Definition run_tests : Stmt unit :=
  cout ("RUNNING TESTS..." +:+ Text.LF) ;;
  tests ← read s_tests;
  for_tests (test_order tests) 0 ;;
  mret tt.

(** [print_summary] *)
Definition print_summary : Stmt unit :=
  print_line_separator ;;
  cout ("SUMMARY:" +:+ Text.LF) ;;
  passed ← read g_successes;
  total ← read (λ p, N.of_nat (size (s_tests p)));
  cout (Text.TAB +:+ "Passed " +:+ Text.to_string passed +:+ " out of "
        +:+ Text.to_string total +:+ " tests." +:+ Text.LF) ;;
  print_line_separator.

(** [ben::UnitTest::UnitTest(name, func)] *)
Definition UnitTest (name : string) (func : bTestFnType) : Stmt unit :=
  update (λ p, with_s_tests (<[name := func]> (s_tests p)) p).

(** [int main()] *)
Definition main : Stmt Z :=
  print_info ;;
  tests ← read (λ p, N.of_nat (size (s_tests p)));
  if tests =? 0 then mret ReturnValue.pass
  else
    run_tests ;;
    print_summary ;;
    passed ← read g_successes;
    total ← read (λ p, N.of_nat (size (s_tests p)));
    mret (if passed =? total then ReturnValue.pass else ReturnValue.fail).

(** Dynamic initialisation: the constructors of the objects that the uses
    of [bTEST_FUNCTION(fName)] define, in some order. *)
Fixpoint static_init (ds : list (string * bTestFnType)) : Stmt unit :=
  match ds with
  | [] => mret tt
  | (name, func) :: rest => UnitTest name func ;; static_init rest
  end.

Definition test_application (ds : list (string * bTestFnType)) : outcome Z :=
  (static_init ds ;; main) fresh_process.

End Implementation.

(** The registry the registrations build, as a pure function. *)
Definition registry_of (ds : list (string * bTestFnType)) : gmap string bTestFnType :=
  foldl (λ tests d, <[d.1 := d.2]> tests) ∅ ds.

(** The console lines of the loop: progress text, what the test printed,
    verdict. *)
Fixpoint tests_console (tests : list (string * bTestFnType)) (idx : N) : string :=
  match tests with
  | [] => EmptyString
  | (name, test) :: rest =>
      progress_text idx name +:+ prints test +:+ verdict_text test
      +:+ tests_console rest (SizeT.succ idx)
  end.

(** How many of the functions in a list of tests return normally. *)
Definition passes (l : list (string * bTestFnType)) : nat :=
  length (filter (λ nt, passing nt.2 = true) l).

(** The text of [print_info]. *)
Definition info_text (n : N) : string :=
  dashes
  +:+ ("INFO:" +:+ Text.TAB
       +:+ "If all tests pass (or no tests fail), the program will return success."
       +:+ Text.LF +:+ Text.TAB +:+ Text.TAB
       +:+ "Otherwise, it will return failure." +:+ Text.LF)
  +:+ ("INFO:" +:+ Text.TAB +:+ "Found " +:+ Text.to_string n +:+ " test"
       +:+ (if n =? 1 then "." +:+ Text.LF else "s." +:+ Text.LF))
  +:+ dashes.

(** The process once the dynamic initialisers have filled the registry. *)
Definition loaded (tests : gmap string bTestFnType) : process :=
  with_s_tests tests fresh_process.

(** The declaration the later versions of the macro make of a test that is
    given no group. *)
Definition ungrouped (d : string * bTestFnType) : declaration :=
  Registration d.1 d.2 None.

End V1_0.

(** ** More sample programs *)

Module MoreSamples.

(** The sample program with one pair declared a second time. *)
Definition program_with_repeat : list declaration :=
  Samples.program
  ++ [Registration "one_is_even" Samples.one_is_odd (Some "example group")].

(** A program that is left by an exception thrown in one of its tests. *)
Definition aborted_program : list declaration :=
  [ Registration "one_is_odd" Samples.one_is_odd None;
    Registration "throws_int" Samples.throws_int None;
    Registration "one_is_one" Samples.one_is_odd None ].

(** The process after [print_info], when the tests have been counted. *)
Definition informed : process :=
  state_of (print_info map_to_list (loaded Samples.registry)).

(** The two tests of the README as the first version declares them. *)
Definition first_version_program : list (string * bTestFnType) :=
  [("one_is_odd", Samples.one_is_odd); ("one_is_even", Samples.one_is_even)].

End MoreSamples.

(** ** Auxiliary facts *)

Lemma size_t_wrap_small n : n < SizeT.modulus → SizeT.wrap n = n.
Proof. intros H. unfold SizeT.wrap. by apply N.mod_small. Qed.

Lemma size_t_succ_small n : n + 1 < SizeT.modulus → SizeT.succ n = n + 1.
Proof. intros H. unfold SizeT.succ, SizeT.add. by apply size_t_wrap_small. Qed.

Lemma string_app_assoc (a b c : string) : (a +:+ b) +:+ c = a +:+ (b +:+ c).
Proof.
  induction a as [|x a IH]; [done|].
  change (String x ((a +:+ b) +:+ c) = String x (a +:+ (b +:+ c))). by rewrite IH.
Qed.

Lemma bumped_succ n x : bumped (S n) x = SizeT.succ (bumped n x).
Proof. done. Qed.

Lemma bumped_succ_inner n x : bumped n (SizeT.succ x) = bumped (S n) x.
Proof. unfold bumped. by rewrite Nat.iter_succ_r. Qed.

Lemma bumped_add n m x : bumped (n + m) x = bumped m (bumped n x).
Proof.
  unfold bumped. rewrite Nat.add_comm. by rewrite Nat.iter_add.
Qed.

Lemma bumped_small n x :
  x + N.of_nat n < SizeT.modulus → bumped n x = x + N.of_nat n.
Proof.
  induction n as [|n IH]; intros Hlt.
  - simpl. lia.
  - rewrite bumped_succ, IH by lia. rewrite size_t_succ_small by lia. lia.
Qed.

Lemma passes_app l k : passes (l ++ k) = (passes l + passes k)%nat.
Proof. unfold passes. by rewrite filter_app, length_app. Qed.

Lemma passes_cons c l :
  passes (c :: l) = ((if passing c.2 then 1 else 0) + passes l)%nat.
Proof.
  unfold passes. rewrite filter_cons. destruct (passing c.2); case_decide; done.
Qed.

Lemma passes_le l : (passes l ≤ length l)%nat.
Proof. unfold passes. apply length_filter. Qed.

Lemma ran_tests_refl p : ran_tests [] p p.
Proof. split; try done. by rewrite app_nil_r. Qed.

Lemma ran_tests_trans l k p1 p2 p3 :
  ran_tests l p1 p2 → ran_tests k p2 p3 → ran_tests (l ++ k) p1 p3.
Proof.
  intros [H1 H2 H3 H4 H5] [K1 K2 K3 K4 K5]. split.
  - by rewrite K1.
  - by rewrite K2.
  - by rewrite K3.
  - by rewrite K4, H4, app_assoc.
  - by rewrite K5, H5, passes_app, bumped_add.
Qed.

Lemma ran_tests_frame k p1 p2 p3 :
  ran_tests [] p1 p2 → ran_tests k p2 p3 → ran_tests k p1 p3.
Proof. intros H1 H2. apply (ran_tests_trans [] k p1 p2 p3 H1 H2). Qed.

(** ** Properties *)

Section Properties.

Variable bTESTS_NO_LOG : bool.
Variable group_order :
  gmap string (gmap string bTestFnType) → list (string * gmap string bTestFnType).
Variable test_order : gmap string bTestFnType → list (string * bTestFnType).

(** Whatever the order of a range-for over an unordered map is, it visits
    every element once. *)
Hypothesis group_order_perm : ∀ m, group_order m ≡ₚ map_to_list m.
Hypothesis test_order_perm : ∀ m, test_order m ≡ₚ map_to_list m.

Local Abbreviation run_test := (run_test bTESTS_NO_LOG).
Local Abbreviation announce_group := (announce_group bTESTS_NO_LOG).
Local Abbreviation for_tests := (for_tests bTESTS_NO_LOG).
Local Abbreviation for_groups := (for_groups bTESTS_NO_LOG test_order).
Local Abbreviation run_tests := (run_tests bTESTS_NO_LOG group_order test_order).
Local Abbreviation get_number_of_tests := (get_number_of_tests group_order).
Local Abbreviation print_info := (print_info group_order).
Local Abbreviation print_summary := (print_summary bTESTS_NO_LOG group_order).
Local Abbreviation main := (main bTESTS_NO_LOG group_order test_order).
Local Abbreviation test_application :=
  (test_application bTESTS_NO_LOG group_order test_order).
Local Abbreviation entries_of := (entries_of test_order).
Local Abbreviation schedule := (schedule group_order test_order).
Local Abbreviation counted := (counted group_order).
Local Abbreviation run_tests_upto := (run_tests_upto bTESTS_NO_LOG test_order).
Local Abbreviation run_tests_after := (run_tests_after bTESTS_NO_LOG test_order).

(** *** One pass through the body of the inner loop *)

Ltac run_step :=
  unfold run_test, call, try_catch_std_exception, cout, set_rdbuf,
    print_line_separator, update, read, mbind, mret, Stmt_bind, Stmt_ret,
    insert_chars.

Ltac text_eq :=
  simpl; unfold progress_text, passed_text, failed_text, logged_text, info_text,
    summary_text, dashes;
  rewrite ?string_app_assoc; repeat split; reflexivity.

Lemma run_test_returns coutBuffer idx group name test p :
  ends test = returns →
  ∃ p', run_test coutBuffer idx group name test p = Done tt p'
        ∧ ran_tests [(group, name, test)] p p'
        ∧ cout_rdbuf p' = coutBuffer
        ∧ (cout_rdbuf p = console_buf → coutBuffer = console_buf →
           console p' = console p +:+ progress_text idx name +:+ passed_text
           ∧ g_testsLog p' =
               if bTESTS_NO_LOG then g_testsLog p
               else g_testsLog p +:+ logged_text name test passed_text).
Proof.
  intros Hends. destruct p as [reg succ fst num rd con log rds calls].
  run_step. rewrite Hends.
  destruct bTESTS_NO_LOG, rd, coutBuffer; simpl; eexists; (split; [reflexivity|]);
    (split; [split; simpl; try done;
             by rewrite passes_cons; unfold passing; simpl; rewrite Hends|]);
    (split; [done|]); try done; intros _ _; text_eq.
Qed.

Lemma run_test_caught coutBuffer idx group name test e what p :
  ends test = throws e →
  catch_std_exception e = Some what →
  ∃ p', run_test coutBuffer idx group name test p = Done tt p'
        ∧ ran_tests [(group, name, test)] p p'
        ∧ g_successes p' = g_successes p
        ∧ cout_rdbuf p' = coutBuffer
        ∧ (cout_rdbuf p = console_buf → coutBuffer = console_buf →
           console p' = console p +:+ progress_text idx name +:+ failed_text what
           ∧ g_testsLog p' =
               if bTESTS_NO_LOG then g_testsLog p
               else g_testsLog p +:+ logged_text name test (failed_text what)).
Proof.
  intros Hends Hcatch. destruct p as [reg succ fst num rd con log rds calls].
  run_step. rewrite Hends, Hcatch.
  destruct bTESTS_NO_LOG, rd, coutBuffer; simpl; eexists; (split; [reflexivity|]);
    (split; [split; simpl; try done;
             by rewrite passes_cons; unfold passing; simpl; rewrite Hends|]);
    (split; [done|]); (split; [done|]); try done; intros _ _; text_eq.
Qed.

Lemma run_test_uncaught coutBuffer idx group name test e p :
  ends test = throws e →
  catch_std_exception e = None →
  ∃ p', run_test coutBuffer idx group name test p = Unwinding e p'
        ∧ ran_tests [(group, name, test)] p p'
        ∧ g_successes p' = g_successes p
        ∧ cout_rdbuf p' = capture_buf bTESTS_NO_LOG
        ∧ (cout_rdbuf p = console_buf →
           console p' = console p +:+ progress_text idx name).
Proof.
  intros Hends Hcatch. destruct p as [reg succ fst num rd con log rds calls].
  run_step. rewrite Hends, Hcatch.
  destruct bTESTS_NO_LOG, rd; simpl; eexists; (split; [reflexivity|]);
    (split; [split; simpl; try done;
             by rewrite passes_cons; unfold passing; simpl; rewrite Hends|]);
    (split; [done|]); (split; [done|]); try done.
Qed.

Lemma announce_group_spec coutBuffer group p :
  ∃ p', announce_group coutBuffer group p = Done tt p'
        ∧ ran_tests [] p p'
        ∧ (cout_rdbuf p = coutBuffer → cout_rdbuf p' = coutBuffer)
        ∧ (cout_rdbuf p = console_buf →
           console p' = console p +:+ ("Group: '" +:+ group +:+ "'" +:+ Text.LF)).
Proof.
  destruct p as [reg succ fst num rd con log rds calls].
  unfold announce_group. run_step.
  destruct bTESTS_NO_LOG, rd; simpl; eexists; (split; [reflexivity|]);
    (split; [split; simpl; try done; by rewrite app_nil_r|]); (split; [done|]); done.
Qed.

(** *** The two loops *)

Lemma contained_cases test :
  (ends test = returns ∧ contained test = true)
  ∨ (∃ e what, ends test = throws e ∧ catch_std_exception e = Some what
               ∧ contained test = true)
  ∨ (∃ e, ends test = throws e ∧ catch_std_exception e = None
          ∧ contained test = false).
Proof.
  unfold contained. destruct (ends test) as [|[w|c w|d]]; simpl; eauto 10.
Qed.

Lemma for_tests_app coutBuffer group l1 l2 idx p :
  for_tests coutBuffer group (l1 ++ l2) idx p
  = (idx' ← for_tests coutBuffer group l1 idx; for_tests coutBuffer group l2 idx') p.
Proof.
  revert idx p. induction l1 as [|[name test] l1 IH]; intros idx p; [done|].
  simpl. unfold mbind, Stmt_bind.
  destruct (run_test coutBuffer idx group name test p); [|done]. apply IH.
Qed.

Lemma for_groups_app coutBuffer gs1 gs2 idx p :
  for_groups coutBuffer (gs1 ++ gs2) idx p
  = (idx' ← for_groups coutBuffer gs1 idx; for_groups coutBuffer gs2 idx') p.
Proof.
  revert idx p. induction gs1 as [|[group tests] gs1 IH]; intros idx p; [done|].
  simpl. unfold mbind, Stmt_bind.
  destruct (announce_group coutBuffer group p); [|done].
  destruct (for_tests _ _ _ _ _); [|done]. apply IH.
Qed.

Lemma for_tests_outcome coutBuffer group l idx p :
  cout_rdbuf p = coutBuffer →
  match for_tests coutBuffer group l idx p with
  | Done idx' p' =>
      Forall (λ nt, contained nt.2 = true) l
      ∧ idx' = bumped (length l) idx
      ∧ ran_tests (in_group group <$> l) p p'
      ∧ cout_rdbuf p' = coutBuffer
  | Unwinding e p' =>
      ∃ l1 name test l2,
        l = l1 ++ (name, test) :: l2
        ∧ Forall (λ nt, contained nt.2 = true) l1
        ∧ ends test = throws e
        ∧ catch_std_exception e = None
        ∧ ran_tests (in_group group <$> (l1 ++ [(name, test)])) p p'
        ∧ cout_rdbuf p' = capture_buf bTESTS_NO_LOG
        ∧ (coutBuffer = console_buf →
           ∃ pre, console p' = pre +:+ progress_text (bumped (length l1) idx) name)
  end.
Proof.
  revert idx p. induction l as [|[name test] l IH]; intros idx p Hrd.
  { simpl. unfold mret, Stmt_ret. split_and!; try done. apply ran_tests_refl. }
  simpl for_tests. unfold mbind, Stmt_bind.
  destruct (contained_cases test) as [[Hends Hc]|[(e & what & Hends & Hcatch & Hc)|(e & Hends & Hcatch & Hc)]].
  - destruct (run_test_returns coutBuffer idx group name test p Hends)
      as (p1 & -> & Hran & Hrd1 & _).
    specialize (IH (SizeT.succ idx) p1 Hrd1).
    destruct (for_tests coutBuffer group l (SizeT.succ idx) p1) as [idx' p'|e' p'].
    + destruct IH as (Hall & -> & Hran' & Hrd'). split_and!; try done.
      * by constructor.
      * simpl. by rewrite bumped_succ_inner.
      * apply (ran_tests_trans [_] _ _ _ _ Hran Hran').
    + destruct IH as (l1 & n & t & l2 & -> & Hall & He & Hce & Hran' & Hrd' & Hcon).
      exists ((name, test) :: l1), n, t, l2. split_and!; try done.
      * by constructor.
      * apply (ran_tests_trans [_] _ _ _ _ Hran Hran').
      * intros Hcb. destruct (Hcon Hcb) as [pre Hpre]. exists pre.
        rewrite Hpre, bumped_succ_inner. reflexivity.
  - destruct (run_test_caught coutBuffer idx group name test e what p Hends Hcatch)
      as (p1 & -> & Hran & _ & Hrd1 & _).
    specialize (IH (SizeT.succ idx) p1 Hrd1).
    destruct (for_tests coutBuffer group l (SizeT.succ idx) p1) as [idx' p'|e' p'].
    + destruct IH as (Hall & -> & Hran' & Hrd'). split_and!; try done.
      * by constructor.
      * simpl. by rewrite bumped_succ_inner.
      * apply (ran_tests_trans [_] _ _ _ _ Hran Hran').
    + destruct IH as (l1 & n & t & l2 & -> & Hall & He & Hce & Hran' & Hrd' & Hcon).
      exists ((name, test) :: l1), n, t, l2. split_and!; try done.
      * by constructor.
      * apply (ran_tests_trans [_] _ _ _ _ Hran Hran').
      * intros Hcb. destruct (Hcon Hcb) as [pre Hpre]. exists pre.
        rewrite Hpre, bumped_succ_inner. reflexivity.
  - destruct (run_test_uncaught coutBuffer idx group name test e p Hends Hcatch)
      as (p1 & -> & Hran & _ & Hrd1 & Hcon).
    exists [], name, test, l. split_and!; try done.
    intros Hcb. exists (console p). apply Hcon. congruence.
Qed.

Lemma entries_of_cons group tests gs :
  entries_of ((group, tests) :: gs)
  = (in_group group <$> test_order tests) ++ entries_of gs.
Proof. done. Qed.

Lemma entries_of_app gs1 gs2 :
  entries_of (gs1 ++ gs2) = entries_of gs1 ++ entries_of gs2.
Proof. unfold entries_of. by rewrite flat_map_app. Qed.

Lemma for_groups_outcome coutBuffer gs idx p :
  cout_rdbuf p = coutBuffer →
  match for_groups coutBuffer gs idx p with
  | Done idx' p' =>
      Forall (λ c : entry, contained c.2 = true) (entries_of gs)
      ∧ idx' = bumped (length (entries_of gs)) idx
      ∧ ran_tests (entries_of gs) p p'
      ∧ cout_rdbuf p' = coutBuffer
  | Unwinding e p' =>
      ∃ (E1 : list entry) (c : entry) (E2 : list entry),
        entries_of gs = E1 ++ c :: E2
        ∧ Forall (λ c : entry, contained c.2 = true) E1
        ∧ ends c.2 = throws e
        ∧ catch_std_exception e = None
        ∧ ran_tests (E1 ++ [c]) p p'
        ∧ cout_rdbuf p' = capture_buf bTESTS_NO_LOG
        ∧ (coutBuffer = console_buf →
           ∃ pre, console p' = pre +:+ progress_text (bumped (length E1) idx) c.1.2)
  end.
Proof.
  revert idx p. induction gs as [|[group tests] gs IH]; intros idx p Hrd.
  { simpl. unfold mret, Stmt_ret. split_and!; try done. apply ran_tests_refl. }
  simpl for_groups. unfold mbind, Stmt_bind. rewrite entries_of_cons.
  destruct (announce_group_spec coutBuffer group p) as (p1 & -> & Hran1 & Hrd1 & _).
  specialize (Hrd1 Hrd).
  pose proof (for_tests_outcome coutBuffer group (test_order tests) idx p1 Hrd1) as Ht.
  destruct (for_tests coutBuffer group (test_order tests) idx p1) as [idx1 p2|e p2].
  - destruct Ht as (Hall & -> & Hran2 & Hrd2).
    specialize (IH (bumped (length (test_order tests)) idx) p2 Hrd2).
    destruct (for_groups coutBuffer gs _ p2) as [idx' p'|e p'].
    + destruct IH as (Hall' & -> & Hran3 & Hrd3). split_and!; try done.
      * apply Forall_app. split; [|done]. by apply Forall_fmap.
      * by rewrite length_app, length_fmap, bumped_add.
      * apply (ran_tests_frame _ _ _ _ Hran1).
        apply (ran_tests_trans _ _ _ _ _ Hran2 Hran3).
    + destruct IH as (E1 & c & E2 & HE & Hall' & He & Hce & Hran3 & Hrd3 & Hcon).
      exists ((in_group group <$> test_order tests) ++ E1), c, E2.
      split_and!; try done.
      * by rewrite HE, app_assoc.
      * apply Forall_app. split; [|done]. by apply Forall_fmap.
      * apply (ran_tests_frame _ _ _ _ Hran1). rewrite <- app_assoc.
        apply (ran_tests_trans _ _ _ _ _ Hran2 Hran3).
      * intros Hcb. destruct (Hcon Hcb) as [pre Hpre]. exists pre.
        by rewrite Hpre, length_app, length_fmap, bumped_add.
  - destruct Ht as (l1 & name & test & l2 & Hl & Hall & He & Hce & Hran2 & Hrd2 & Hcon).
    exists (in_group group <$> l1), (group, name, test), ((in_group group <$> l2) ++ entries_of gs).
    split_and!; try done.
    + by rewrite Hl, fmap_app, <- app_assoc.
    + by apply Forall_fmap.
    + apply (ran_tests_frame _ _ _ _ Hran1).
      by rewrite fmap_app in Hran2.
    + intros Hcb. destruct (Hcon Hcb) as [pre Hpre]. exists pre.
      by rewrite Hpre, length_fmap.
Qed.

(** *** [run_tests] as a whole *)

Lemma insert_chars_frame text p :
  ran_tests [] p (insert_chars text p)
  ∧ cout_rdbuf (insert_chars text p) = cout_rdbuf p
  ∧ set_rdbuf_calls (insert_chars text p) = set_rdbuf_calls p.
Proof.
  destruct p as [reg succ fst num rd con log rds calls]. unfold insert_chars.
  destruct rd; simpl; (split; [split; simpl; try done; by rewrite app_nil_r|done]).
Qed.

Lemma run_tests_outcome p :
  match run_tests p with
  | Done _ p' =>
      Forall (λ c : entry, contained c.2 = true) (schedule (s_tests p))
      ∧ ran_tests (schedule (s_tests p)) p p'
      ∧ cout_rdbuf p' = cout_rdbuf p
  | Unwinding e p' =>
      ∃ (E1 : list entry) (c : entry) (E2 : list entry),
        schedule (s_tests p) = E1 ++ c :: E2
        ∧ Forall (λ c : entry, contained c.2 = true) E1
        ∧ ends c.2 = throws e
        ∧ catch_std_exception e = None
        ∧ ran_tests (E1 ++ [c]) p p'
        ∧ cout_rdbuf p' = capture_buf bTESTS_NO_LOG
        ∧ (cout_rdbuf p = console_buf →
           ∃ pre, console p' = pre +:+ progress_text (bumped (length E1) 0) c.1.2)
  end.
Proof.
  unfold run_tests, mbind, Stmt_bind, read, cout, update, mret, Stmt_ret.
  destruct (insert_chars_frame ("RUNNING TESTS..." +:+ Text.LF) p) as (Hran & Hrd & _).
  set (p1 := insert_chars _ p) in *.
  pose proof (for_groups_outcome (cout_rdbuf p) (group_order (s_tests p1)) 0 p1 Hrd) as H.
  rewrite (ran_s_tests _ _ _ Hran) in *. unfold schedule.
  destruct (for_groups _ _ _ p1) as [idx p'|e p'].
  - destruct H as (Hall & _ & Hran' & Hrd'). split_and!; try done.
    apply (ran_tests_frame _ _ _ _ Hran Hran').
  - destruct H as (E1 & c & E2 & HE & Hall & He & Hce & Hran' & Hrd' & Hcon).
    exists E1, c, E2. split_and!; try done.
    apply (ran_tests_frame _ _ _ _ Hran Hran').
Qed.

(** *** The reporter *)

Lemma get_number_of_tests_first p :
  first p = true →
  get_number_of_tests p
  = Done (counted p) (with_first false (with_numTests (counted p) p)).
Proof.
  intros Hf. unfold get_number_of_tests, counted,
    mbind, Stmt_bind, read, update, mret, Stmt_ret.
  rewrite Hf. by destruct p.
Qed.

Lemma get_number_of_tests_cached p :
  first p = false → get_number_of_tests p = Done (numTests p) p.
Proof.
  intros Hf. unfold get_number_of_tests,
    mbind, Stmt_bind, read, update, mret, Stmt_ret.
  by rewrite Hf.
Qed.

Lemma foldl_size_t_add {A} (f : A → nat) (l : list A) (n0 : N) :
  n0 + N.of_nat (sum_list_with f l) < SizeT.modulus →
  foldl (λ n x, SizeT.add n (N.of_nat (f x))) n0 l = n0 + N.of_nat (sum_list_with f l).
Proof.
  revert n0. induction l as [|x l IH]; intros n0 Hlt; simpl in *; [lia|].
  unfold SizeT.add at 2. rewrite size_t_wrap_small by lia. rewrite IH by lia. lia.
Qed.

Lemma counted_registered p :
  numTests p = 0 →
  N.of_nat (registered_tests (s_tests p)) < SizeT.modulus →
  counted p = N.of_nat (registered_tests (s_tests p)).
Proof.
  intros Hnum Hlt. unfold counted, registered_tests in *.
  rewrite <- (group_order_perm (s_tests p)) in *.
  rewrite (foldl_size_t_add (λ gt, size gt.2)); rewrite Hnum; [done|lia].
Qed.

Lemma length_schedule tests :
  length (schedule tests) = registered_tests tests.
Proof.
  unfold schedule, registered_tests. rewrite <- (group_order_perm tests).
  induction (group_order tests) as [|[group ts] gs IH]; [done|].
  rewrite entries_of_cons, length_app, length_fmap, IH. simpl. f_equal.
  by rewrite (test_order_perm ts), length_map_to_list.
Qed.

Ltac run_reporter :=
  unfold print_info, print_summary,
    summary_block, print_line_separator, cout, set_rdbuf, update, read, mbind, mret,
    Stmt_bind, Stmt_ret.

Lemma print_info_spec p :
  first p = true →
  cout_rdbuf p = console_buf →
  print_info p
  = Done tt (with_console
               (console p +:+ info_text (counted p) (N.of_nat (size (s_tests p))))
               (with_first false (with_numTests (counted p) p))).
Proof.
  intros Hf Hrd. run_reporter.
  set (p1 := insert_chars _ p). set (p2 := insert_chars _ p1).
  assert (first p2 = true ∧ counted p2 = counted p) as [Hf2 Hc2].
  { subst p1 p2. destruct p as [reg succ fst num rd con log rds calls].
    simpl in *. subst. done. }
  rewrite (get_number_of_tests_first p2 Hf2).
  rewrite get_number_of_tests_cached by done.
  subst p1 p2. destruct p as [reg succ fst num rd con log rds calls].
  simpl in *. subst. rewrite Hc2. unfold insert_chars, with_first, with_numTests,
    with_console. simpl. do 2 f_equal. text_eq.
Qed.

Lemma print_summary_spec p :
  first p = false →
  cout_rdbuf p = console_buf →
  ∃ p', print_summary p = Done tt p'
        ∧ ran_tests [] p p'
        ∧ cout_rdbuf p' = console_buf
        ∧ console p' = console p +:+ summary_text (g_successes p) (numTests p)
        ∧ g_testsLog p' =
            if bTESTS_NO_LOG then g_testsLog p
            else g_testsLog p +:+ summary_text (g_successes p) (numTests p).
Proof.
  intros Hf Hrd. run_reporter.
  unfold get_number_of_tests, mbind, Stmt_bind, read,
    update, mret, Stmt_ret.
  destruct p as [reg succ fst num rd con log rds calls]. simpl in *. subst.
  unfold insert_chars. simpl.
  destruct bTESTS_NO_LOG; simpl; eexists; (split; [reflexivity|]);
    (split; [split; simpl; try done; by rewrite app_nil_r|]); (split; [done|]);
    text_eq.
Qed.

(** *** Registration *)

Lemma UnitTest_spec name func group p :
  UnitTest name func group p
  = Done tt (with_s_tests (register name func group (s_tests p)) p).
Proof.
  unfold UnitTest, register, mbind, Stmt_bind, read, update, mret, Stmt_ret.
  destruct p as [reg succ fst num rd con log rds calls]. simpl.
  destruct (reg !! group) as [in_grp|] eqn:Hg.
  - rewrite bool_decide_eq_true_2 by eauto. simpl. by rewrite Hg.
  - rewrite bool_decide_eq_false_2 by (intros [? ?]; congruence). simpl.
    rewrite lookup_insert_eq. simpl.
    unfold with_s_tests. simpl. by rewrite insert_insert_eq.
Qed.

Lemma static_init_spec ds p :
  static_init ds p
  = Done tt (with_s_tests
               (foldl (λ tests d,
                         register (decl_name d) (decl_body d)
                                  (default "ungrouped" (decl_group d)) tests)
                      (s_tests p) ds) p).
Proof.
  revert p. induction ds as [|d ds IH]; intros p; simpl.
  - by destruct p.
  - unfold mbind, Stmt_bind, bTEST_FUNCTION. rewrite UnitTest_spec, IH.
    by destruct p.
Qed.

Lemma test_application_loaded ds :
  test_application ds = main (loaded (registry_of ds)).
Proof.
  unfold test_application, mbind, Stmt_bind.
  by rewrite static_init_spec.
Qed.

(** *** The entry point *)

Lemma schedule_empty : schedule ∅ = [].
Proof.
  unfold schedule. pose proof (group_order_perm ∅) as H.
  rewrite map_to_list_empty in H. apply Permutation_nil_r in H. by rewrite H.
Qed.

Lemma counted_loaded tests :
  N.of_nat (registered_tests tests) < SizeT.modulus →
  counted (loaded tests) = N.of_nat (registered_tests tests).
Proof. intros Hlt. by apply counted_registered. Qed.

Lemma main_empty :
  main (loaded ∅)
  = Done ReturnValue.pass
         (with_console (info_text 0 0) (with_first false (loaded ∅))).
Proof.
  unfold main, mbind, Stmt_bind, read, mret, Stmt_ret.
  rewrite print_info_spec by done.
  rewrite counted_loaded by (by vm_compute). simpl.
  rewrite map_size_empty. simpl. reflexivity.
Qed.

Lemma main_outcome tests :
  N.of_nat (registered_tests tests) < SizeT.modulus →
  match main (loaded tests) with
  | Done code p' =>
      Forall (λ c : entry, contained c.2 = true) (schedule tests)
      ∧ test_calls p' = schedule tests
      ∧ g_successes p' = N.of_nat (passes (schedule tests))
      ∧ numTests p' = N.of_nat (registered_tests tests)
      ∧ first p' = false
      ∧ cout_rdbuf p' = console_buf
      ∧ code = (if bool_decide (passes (schedule tests) = registered_tests tests)
                then ReturnValue.pass else ReturnValue.fail)
      ∧ (tests ≠ ∅ →
         ∃ pre, console p' = pre +:+ summary_text (g_successes p') (numTests p'))
  | Unwinding e p' =>
      ∃ (E1 : list entry) (c : entry) (E2 : list entry),
        schedule tests = E1 ++ c :: E2
        ∧ Forall (λ c : entry, contained c.2 = true) E1
        ∧ ends c.2 = throws e
        ∧ catch_std_exception e = None
        ∧ test_calls p' = E1 ++ [c]
        ∧ g_successes p' = N.of_nat (passes E1)
        ∧ cout_rdbuf p' = capture_buf bTESTS_NO_LOG
        ∧ ∃ pre, console p' = pre +:+ progress_text (N.of_nat (length E1)) c.1.2
  end.
Proof.
  intros Hlt.
  unfold main, mbind, Stmt_bind, read, mret, Stmt_ret.
  rewrite print_info_spec by done. rewrite counted_loaded by done.
  set (p1 := with_console _ _).
  assert (s_tests p1 = tests ∧ g_successes p1 = 0 ∧ first p1 = false
          ∧ numTests p1 = N.of_nat (registered_tests tests)
          ∧ cout_rdbuf p1 = console_buf ∧ test_calls p1 = [])
    as (Hreg & Hsucc & Hfirst & Hnum & Hrd & Hcalls) by done.
  rewrite Hreg.
  pose proof (length_schedule tests) as Hlen.
  destruct (N.of_nat (size tests) =? 0) eqn:Hsize.
  { apply N.eqb_eq in Hsize.
    assert (tests = ∅) as -> by (apply map_size_empty_iff; lia).
    rewrite schedule_empty in *. simpl in Hlen. rewrite <- Hlen.
    split_and!; try done. }
  pose proof (run_tests_outcome p1) as Hrun. rewrite Hreg, Hrd in Hrun.
  destruct (run_tests p1) as [[] p2|e p2].
  - destruct Hrun as (Hall & Hran & Hrd2).
    destruct (print_summary_spec p2) as (p3 & -> & Hran3 & Hrd3 & Hcon3 & _).
    { by rewrite (ran_first _ _ _ Hran). }
    { done. }
    rewrite get_number_of_tests_cached
      by (by rewrite (ran_first _ _ _ Hran3), (ran_first _ _ _ Hran)).
    pose proof (passes_le (schedule tests)) as Hle.
    assert (g_successes p2 = N.of_nat (passes (schedule tests))) as Hs2.
    { rewrite (ran_successes _ _ _ Hran), Hsucc, bumped_small by lia. lia. }
    assert (g_successes p3 = N.of_nat (passes (schedule tests))) as Hs3.
    { by rewrite (ran_successes _ _ _ Hran3). }
    assert (numTests p3 = N.of_nat (registered_tests tests)) as Hn3.
    { by rewrite (ran_numTests _ _ _ Hran3), (ran_numTests _ _ _ Hran). }
    split_and!; try done.
    + by rewrite (ran_calls _ _ _ Hran3), (ran_calls _ _ _ Hran), Hcalls, app_nil_r.
    + by rewrite (ran_first _ _ _ Hran3), (ran_first _ _ _ Hran).
    + rewrite Hs3, Hn3. case_bool_decide as Hd.
      * rewrite Hd, N.eqb_refl. done.
      * destruct (N.eqb_spec (N.of_nat (passes (schedule tests)))
                    (N.of_nat (registered_tests tests))); [lia|done].
    + intros _. exists (console p2). rewrite Hcon3.
      by rewrite Hs3, Hn3, Hs2, (ran_numTests _ _ _ Hran), Hnum.
  - destruct Hrun as (E1 & c & E2 & HE & Hall & He & Hce & Hran & Hrd2 & Hcon).
    exists E1, c, E2.
    assert (length E1 < length (schedule tests))%nat as HlenE.
    { rewrite HE, length_app. simpl. lia. }
    pose proof (passes_le E1) as Hle.
    split_and!; try done.
    + by rewrite (ran_calls _ _ _ Hran), Hcalls.
    + rewrite (ran_successes _ _ _ Hran), Hsucc, passes_app.
      assert (passes [c] = 0%nat) as ->.
      { rewrite passes_cons. unfold passing. by rewrite He. }
      rewrite Nat.add_0_r, bumped_small by lia. lia.
    + destruct (Hcon eq_refl) as [pre Hpre]. exists pre.
      rewrite Hpre, bumped_small by lia. done.
Qed.

(** *** Stopping [run_tests] at a test *)

Lemma run_tests_split p gs1 group tests gs2 l1 name test l2 :
  group_order (s_tests p) = gs1 ++ (group, tests) :: gs2 →
  test_order tests = l1 ++ (name, test) :: l2 →
  run_tests p
  = match run_tests_upto gs1 group l1 p with
    | Done idx pk =>
        (run_test (cout_rdbuf p) idx group name test ;;
         run_tests_after (cout_rdbuf p) group l2 gs2 idx) pk
    | Unwinding e pk => Unwinding e pk
    end.
Proof.
  intros Hgo Hto.
  unfold run_tests, run_tests_upto,
    run_tests_after,
    mbind, Stmt_bind, read, cout, update, mret, Stmt_ret.
  destruct (insert_chars_frame ("RUNNING TESTS..." +:+ Text.LF) p) as (Hran & _ & _).
  rewrite (ran_s_tests _ _ _ Hran), Hgo, for_groups_app.
  unfold mbind, Stmt_bind.
  destruct (for_groups (cout_rdbuf p) gs1 0 _) as [idx0 p1|e p1]; [|done].
  simpl for_groups. unfold mbind, Stmt_bind.
  destruct (announce_group (cout_rdbuf p) group p1) as [[] p2|e p2]; [|done].
  rewrite Hto, for_tests_app. unfold mbind, Stmt_bind.
  destruct (for_tests (cout_rdbuf p) group l1 idx0 p2) as [idx pk|e pk]; [|done].
  simpl for_tests. unfold mbind, Stmt_bind.
  destruct (run_test (cout_rdbuf p) idx group name test pk) as [[] pk'|e pk']; [|done].
  destruct (for_tests (cout_rdbuf p) group l2 (SizeT.succ idx) pk'); [|done].
  by destruct (for_groups (cout_rdbuf p) gs2 _ _).
Qed.

Lemma for_tests_ran coutBuffer group l idx p :
  cout_rdbuf p = coutBuffer →
  ∃ ran, ran `prefix_of` (in_group group <$> l)
         ∧ ran_tests ran p (state_of (for_tests coutBuffer group l idx p)).
Proof.
  intros Hrd. pose proof (for_tests_outcome coutBuffer group l idx p Hrd) as H.
  destruct (for_tests coutBuffer group l idx p) as [idx' p'|e p']; simpl.
  - destruct H as (_ & _ & Hran & _). by exists (in_group group <$> l).
  - destruct H as (l1 & n & t & l2 & -> & _ & _ & _ & Hran & _).
    eexists. split; [|done]. exists (in_group group <$> l2).
    by rewrite !fmap_app, <- app_assoc.
Qed.

Lemma for_groups_ran coutBuffer gs idx p :
  cout_rdbuf p = coutBuffer →
  ∃ ran, ran `prefix_of` entries_of gs
         ∧ ran_tests ran p (state_of (for_groups coutBuffer gs idx p)).
Proof.
  intros Hrd. pose proof (for_groups_outcome coutBuffer gs idx p Hrd) as H.
  destruct (for_groups coutBuffer gs idx p) as [idx' p'|e p']; simpl.
  - destruct H as (_ & _ & Hran & _). by exists (entries_of gs).
  - destruct H as (E1 & c & E2 & -> & _ & _ & _ & Hran & _).
    eexists. split; [|done]. exists E2. by rewrite <- app_assoc.
Qed.

Lemma run_tests_upto_ran p gs1 group l1 :
  ∃ ran, ran `prefix_of` (entries_of gs1 ++ (in_group group <$> l1))
         ∧ ran_tests ran p (state_of (run_tests_upto gs1 group l1 p)).
Proof.
  unfold run_tests_upto,
    mbind, Stmt_bind, read, cout, update, mret, Stmt_ret.
  destruct (insert_chars_frame ("RUNNING TESTS..." +:+ Text.LF) p) as (Hran0 & Hrd0 & _).
  set (p0 := insert_chars _ p) in *.
  pose proof (for_groups_outcome (cout_rdbuf p) gs1 0 p0 Hrd0) as Hg.
  destruct (for_groups (cout_rdbuf p) gs1 0 p0) as [idx0 p1|e p1]; simpl.
  - destruct Hg as (_ & _ & Hran1 & Hrd1).
    destruct (announce_group_spec (cout_rdbuf p) group p1) as (p2 & -> & Hran2 & Hrd2 & _).
    destruct (for_tests_ran (cout_rdbuf p) group l1 idx0 p2 (Hrd2 Hrd1))
      as (ran & Hpre & Hran3).
    exists (entries_of gs1 ++ ran). split; [by apply prefix_app|].
    apply (ran_tests_frame _ _ _ _ Hran0).
    apply (ran_tests_trans _ _ _ _ _ Hran1).
    apply (ran_tests_frame _ _ _ _ Hran2 Hran3).
  - destruct Hg as (E1 & c & E2 & -> & _ & _ & _ & Hran1 & _).
    exists (E1 ++ [c]). split.
    + exists (E2 ++ (in_group group <$> l1)). by rewrite <- !app_assoc.
    + apply (ran_tests_frame _ _ _ _ Hran0 Hran1).
Qed.

Lemma run_tests_upto_done p gs1 group l1 idx pk :
  run_tests_upto gs1 group l1 p = Done idx pk →
  idx = bumped (length (entries_of gs1 ++ (in_group group <$> l1))) 0
  ∧ ran_tests (entries_of gs1 ++ (in_group group <$> l1)) p pk
  ∧ cout_rdbuf pk = cout_rdbuf p.
Proof.
  unfold run_tests_upto,
    mbind, Stmt_bind, read, cout, update, mret, Stmt_ret.
  destruct (insert_chars_frame ("RUNNING TESTS..." +:+ Text.LF) p) as (Hran0 & Hrd0 & _).
  set (p0 := insert_chars _ p) in *.
  pose proof (for_groups_outcome (cout_rdbuf p) gs1 0 p0 Hrd0) as Hg.
  destruct (for_groups (cout_rdbuf p) gs1 0 p0) as [idx0 p1|e p1]; [|done].
  destruct Hg as (_ & -> & Hran1 & Hrd1).
  destruct (announce_group_spec (cout_rdbuf p) group p1) as (p2 & -> & Hran2 & Hrd2 & _).
  pose proof (for_tests_outcome (cout_rdbuf p) group l1
                (bumped (length (entries_of gs1)) 0) p2 (Hrd2 Hrd1)) as Ht.
  intros Heq. rewrite Heq in Ht. destruct Ht as (_ & -> & Hran3 & Hrd3).
  split_and!; try done.
  - by rewrite length_app, length_fmap, bumped_add.
  - apply (ran_tests_frame _ _ _ _ Hran0).
    apply (ran_tests_trans _ _ _ _ _ Hran1).
    apply (ran_tests_frame _ _ _ _ Hran2 Hran3).
Qed.

(** *** Which entries are on the schedule *)

Lemma elem_of_schedule tests group name func :
  (group, name, func) ∈ schedule tests
  ↔ ∃ in_grp, tests !! group = Some in_grp ∧ in_grp !! name = Some func.
Proof.
  unfold schedule, entries_of.
  rewrite list_elem_of_In, in_flat_map. split.
  - intros ([g ts] & Hg & Hc). simpl in Hc.
    apply list_elem_of_In, list_elem_of_fmap in Hc as ([n f] & Heq & Hnt).
    unfold in_group in Heq. simpl in Heq. injection Heq as -> -> ->.
    exists ts. split.
    + apply list_elem_of_In in Hg. rewrite group_order_perm in Hg.
      by apply elem_of_map_to_list in Hg.
    + rewrite test_order_perm in Hnt. by apply elem_of_map_to_list in Hnt.
  - intros (in_grp & Hg & Hn). exists (group, in_grp). split.
    + apply list_elem_of_In. rewrite group_order_perm. by apply elem_of_map_to_list.
    + simpl. apply list_elem_of_In, list_elem_of_fmap. exists (name, func). split; [done|].
      rewrite test_order_perm. by apply elem_of_map_to_list.
Qed.

(** *** A test inside a run *)




(** *** The claims about the runner *)



(** C6.  Whenever [run_tests], entered with [std::cout] on the console,
    reaches a test, [std::cout] points at the console, the buffer
    [run_tests] saved on entry.  If the call of the test returns or throws
    something the handler catches, [std::cout] points at that buffer again
    when the body of the loop is left, the console has received the progress
    text and the verdict of the test and nothing else, and [run_tests] goes
    on with what is left of the loops.  If the call throws anything else,
    the restoring call is skipped: the exception leaves [run_tests] with
    [std::cout] still pointing at the capture buffer, and the console has
    received the progress text only.  In the build without log this is
    stated for tests that insert nothing into [std::cout]; in the logging
    build the log file is taken to be open, as it is throughout. *)
Theorem capture_released_and_status_on_console
    p gs1 group tests gs2 l1 name test l2 idx pk :
  cout_rdbuf p = console_buf →
  group_order (s_tests p) = gs1 ++ (group, tests) :: gs2 →
  test_order tests = l1 ++ (name, test) :: l2 →
  Forall (λ c : entry, null_safe bTESTS_NO_LOG c.2 = true)
         (entries_of gs1 ++ (in_group group <$> l1) ++ [(group, name, test)]) →
  run_tests_upto gs1 group l1 p = Done idx pk →
  cout_rdbuf pk = console_buf
  ∧ (contained test = true →
     ∃ pk',
       run_test console_buf idx group name test pk = Done tt pk'
       ∧ cout_rdbuf pk' = cout_rdbuf pk
       ∧ console pk' = console pk +:+ progress_text idx name +:+ verdict_text test
       ∧ run_tests p = run_tests_after console_buf group l2 gs2 idx pk')
  ∧ (contained test = false →
     ∃ e pk',
       ends test = throws e
       ∧ run_test console_buf idx group name test pk = Unwinding e pk'
       ∧ cout_rdbuf pk' = capture_buf bTESTS_NO_LOG
       ∧ cout_rdbuf pk' ≠ cout_rdbuf pk
       ∧ console pk' = console pk +:+ progress_text idx name
       ∧ run_tests p = Unwinding e pk').
Proof.
  intros Hrd Hgo Hto _ Hupto.
  destruct (run_tests_upto_done _ _ _ _ _ _ Hupto) as (_ & _ & Hrdk).
  rewrite Hrd in Hrdk.
  pose proof (run_tests_split p gs1 group tests gs2 l1 name test l2 Hgo Hto) as Hsplit.
  rewrite Hupto, Hrd in Hsplit. unfold mbind at 1, Stmt_bind at 1 in Hsplit.
  split; [done|]. unfold verdict_text.
  destruct (contained_cases test)
    as [[Hends Hc]|[(e & what & Hends & Hcatch & Hc)|(e & Hends & Hcatch & Hc)]].
  - split; intros Hc'; [|congruence].
    destruct (run_test_returns console_buf idx group name test pk Hends)
      as (pk' & Hrun & _ & Hrd' & Hcon).
    destruct (Hcon Hrdk eq_refl) as [Hcon' _].
    exists pk'. rewrite Hends. split_and!; [done|congruence|done|].
    by rewrite Hsplit, Hrun.
  - split; intros Hc'; [|congruence].
    destruct (run_test_caught console_buf idx group name test e what pk Hends Hcatch)
      as (pk' & Hrun & _ & _ & Hrd' & Hcon).
    destruct (Hcon Hrdk eq_refl) as [Hcon' _].
    exists pk'. rewrite Hends, Hcatch. split_and!; [done|congruence|done|].
    by rewrite Hsplit, Hrun.
  - split; intros Hc'; [congruence|].
    destruct (run_test_uncaught console_buf idx group name test e pk Hends Hcatch)
      as (pk' & Hrun & _ & _ & Hrd' & Hcon).
    exists e, pk'. split_and!; [done|done|done| |by apply Hcon|].
    + rewrite Hrd', Hrdk. by destruct bTESTS_NO_LOG.
    + by rewrite Hsplit, Hrun.
Qed.

(** *** Counting registered tests *)

Lemma registered_tests_insert tests group in_grp :
  registered_tests (<[group := in_grp]> tests)
  = (size in_grp + registered_tests (delete group tests))%nat.
Proof.
  unfold registered_tests. rewrite <- insert_delete_eq.
  by rewrite map_to_list_insert by apply lookup_delete_eq.
Qed.

Lemma registered_tests_lookup tests group in_grp :
  tests !! group = Some in_grp →
  registered_tests tests = (size in_grp + registered_tests (delete group tests))%nat.
Proof.
  intros H. rewrite <- (insert_id tests group in_grp H) at 1.
  apply registered_tests_insert.
Qed.

Lemma registered_tests_register name func group tests :
  registered_tests (register name func group tests) ≠ 0%nat.
Proof.
  unfold register. rewrite registered_tests_insert.
  assert (size (<[name := func]> (default ∅ (tests !! group))) ≠ 0%nat); [|lia].
  apply (map_size_ne_0_lookup_2 _ name). rewrite lookup_insert_eq. eauto.
Qed.

Lemma registered_tests_zero ds :
  registered_tests (registry_of ds) = 0%nat → ds = [].
Proof.
  destruct ds as [|d ds _] using rev_ind; [done|].
  unfold registry_of. rewrite foldl_snoc. intros H.
  by apply registered_tests_register in H.
Qed.

(** *** What [run_tests] calls *)

Lemma run_tests_ran p :
  ∃ ran, ran `prefix_of` schedule (s_tests p)
         ∧ ran_tests ran p (state_of (run_tests p)).
Proof.
  pose proof (run_tests_outcome p) as H.
  destruct (run_tests p) as [[] p'|e p']; simpl.
  - destruct H as (_ & Hran & _). by exists (schedule (s_tests p)).
  - destruct H as (E1 & c & E2 & -> & _ & _ & _ & Hran & _).
    exists (E1 ++ [c]). split; [|done]. exists E2. by rewrite <- app_assoc.
Qed.

Lemma run_tests_completes p :
  Forall (λ c : entry, contained c.2 = true) (schedule (s_tests p)) →
  ∃ p', run_tests p = Done tt p' ∧ ran_tests (schedule (s_tests p)) p p'.
Proof.
  intros Hall. pose proof (run_tests_outcome p) as H.
  destruct (run_tests p) as [[] p'|e p'].
  - destruct H as (_ & Hran & _). by exists p'.
  - destruct H as (E1 & c & E2 & HE & _ & He & Hce & _).
    rewrite HE in Hall. apply Forall_app in Hall as [_ Hc].
    apply Forall_cons in Hc as [Hc _]. unfold contained in Hc.
    rewrite He, Hce in Hc. apply bool_decide_eq_true in Hc as [? ?]. done.
Qed.

(** *** The claims about the registry *)

(** C3.  When the constructor of [UnitTest] is run for a group and a name
    that are in the registry already, the function stored for that pair is
    replaced by the new one; the group and the registry keep their sizes; the
    other entries of the group stay as they are.  From then on the schedule of
    [run_tests] has the new function, and no other, for the pair: whatever
    [run_tests] calls under that group and name is the new function, and a
    run that comes to its end has called it. *)
Theorem reregistration_replaces_action name old new group in_grp p :
  s_tests p !! group = Some in_grp →
  in_grp !! name = Some old →
  ∃ p',
    UnitTest name new group p = Done tt p'
    ∧ s_tests p' !! group = Some (<[name := new]> in_grp)
    ∧ <[name := new]> in_grp !! name = Some new
    ∧ (∀ name', name' ≠ name → <[name := new]> in_grp !! name' = in_grp !! name')
    ∧ size (<[name := new]> in_grp) = size in_grp
    ∧ size (s_tests p') = size (s_tests p)
    ∧ registered_tests (s_tests p') = registered_tests (s_tests p)
    ∧ (∀ func, (group, name, func) ∈ schedule (s_tests p') ↔ func = new)
    ∧ (∀ q func,
         s_tests q = s_tests p' → test_calls q = [] →
         (group, name, func) ∈ test_calls (state_of (run_tests q)) → func = new)
    ∧ (∀ q q',
         s_tests q = s_tests p' → run_tests q = Done tt q' →
         (group, name, new) ∈ test_calls q').
Proof.
  intros Hg Hn. eexists. split; [apply UnitTest_spec|].
  assert (s_tests (with_s_tests (register name new group (s_tests p)) p)
          = <[group := <[name := new]> in_grp]> (s_tests p)) as ->.
  { unfold register. by rewrite Hg. }
  assert (∀ func, (group, name, func)
                    ∈ schedule (<[group := <[name := new]> in_grp]> (s_tests p))
                  ↔ func = new) as Hsched.
  { intros func. rewrite elem_of_schedule, lookup_insert_eq. split.
    - intros (? & [= <-] & H). rewrite lookup_insert_eq in H. congruence.
    - intros ->. eexists. split; [done|]. apply lookup_insert_eq. }
  split_and!.
  - apply lookup_insert_eq.
  - apply lookup_insert_eq.
  - intros name' Hne. by apply lookup_insert_ne.
  - apply map_size_insert_Some. eauto.
  - apply map_size_insert_Some. eauto.
  - rewrite registered_tests_insert, (registered_tests_lookup _ _ _ Hg).
    f_equal. apply map_size_insert_Some. eauto.
  - done.
  - intros q func Hq Hcalls Hin.
    destruct (run_tests_ran q) as (ran & [k Hk] & Hran).
    rewrite (ran_calls _ _ _ Hran), Hcalls in Hin. simpl in Hin.
    apply Hsched. rewrite <- Hq, Hk. apply elem_of_app. by left.
  - intros q q' Hq Hrun.
    pose proof (run_tests_outcome q) as H. rewrite Hrun in H.
    destruct H as (_ & Hran & _). rewrite (ran_calls _ _ _ Hran), Hq.
    apply elem_of_app. right. by apply Hsched.
Qed.


(** *** The claims about the entry point *)

Lemma schedule_split_length tests gs1 group ts gs2 l1 l2 :
  group_order tests = gs1 ++ (group, ts) :: gs2 →
  test_order ts = l1 ++ l2 →
  (length (entries_of gs1 ++ (in_group group <$> l1)) ≤ registered_tests tests)%nat.
Proof.
  intros Hgo Hto. rewrite <- length_schedule. unfold schedule.
  rewrite Hgo, entries_of_app, entries_of_cons, Hto, fmap_app.
  rewrite !length_app. lia.
Qed.

Lemma main_final_counter tests :
  N.of_nat (registered_tests tests) < SizeT.modulus →
  let pf := state_of (main (loaded tests)) in
  g_successes pf = N.of_nat (passes (test_calls pf))
  ∧ g_successes pf ≤ N.of_nat (registered_tests tests).
Proof.
  intros Hlt. pose proof (main_outcome tests Hlt) as H.
  pose proof (length_schedule tests) as Hlen.
  destruct (main (loaded tests)) as [code p'|e p']; simpl.
  - destruct H as (_ & Hcalls & Hs & _). rewrite Hcalls, Hs.
    pose proof (passes_le (schedule tests)). split; [done|lia].
  - destruct H as (E1 & c & E2 & HE & _ & He & _ & Hcalls & Hs & _).
    rewrite Hcalls, Hs, passes_app.
    assert (passes [c] = 0%nat) as ->.
    { rewrite passes_cons. unfold passing. by rewrite He. }
    rewrite Nat.add_0_r. split; [done|].
    pose proof (passes_le E1). rewrite HE, length_app in Hlen. lia.
Qed.

Lemma run_test_counter coutBuffer idx group name test p :
  g_successes (state_of (run_test coutBuffer idx group name test p))
  = if passing test then SizeT.succ (g_successes p) else g_successes p.
Proof.
  unfold passing.
  destruct (contained_cases test)
    as [[Hends _]|[(e & what & Hends & Hcatch & _)|(e & Hends & Hcatch & _)]];
    rewrite Hends.
  - destruct (run_test_returns coutBuffer idx group name test p Hends)
      as (p' & -> & Hran & _).
    simpl. rewrite (ran_successes _ _ _ Hran), passes_cons. unfold passing.
    simpl. by rewrite Hends.
  - by destruct (run_test_caught coutBuffer idx group name test e what p Hends Hcatch)
      as (p' & -> & _ & Hs & _).
  - by destruct (run_test_uncaught coutBuffer idx group name test e p Hends Hcatch)
      as (p' & -> & _ & Hs & _).
Qed.

Lemma reporter_keeps_counter p :
  g_successes (state_of (print_info p)) = g_successes p
  ∧ g_successes (state_of (print_summary p)) = g_successes p
  ∧ g_successes (state_of (get_number_of_tests p)) = g_successes p.
Proof.
  destruct p as [reg succ fst num rd con log rds calls].
  run_reporter.
  unfold get_number_of_tests, mbind, Stmt_bind, read,
    update, mret, Stmt_ret, insert_chars.
  by destruct bTESTS_NO_LOG, fst, rd.
Qed.


(** C7.  [g_successes] is 0 when the process starts and still 0 when the
    registrations are done.  Wherever [run_tests] stands between two tests,
    and when the application ends in whatever way, [g_successes] is the
    number of calls made so far that returned, and it does not exceed the
    number of registered tests.  One pass through the body of the loop adds
    one when the call returns and leaves the counter alone when it throws;
    the reporter, the group announcement and the registration leave it
    alone. *)
Theorem passed_never_exceeds_total ds :
  N.of_nat (registered_tests (registry_of ds)) < SizeT.modulus →
  g_successes fresh_process = 0
  ∧ g_successes (loaded (registry_of ds)) = 0
  ∧ (∀ gs1 group ts gs2 l1 l2,
       group_order (registry_of ds) = gs1 ++ (group, ts) :: gs2 →
       test_order ts = l1 ++ l2 →
       let pk := state_of ((print_info ;; run_tests_upto gs1 group l1)
                             (loaded (registry_of ds))) in
       g_successes pk = N.of_nat (passes (test_calls pk))
       ∧ g_successes pk ≤ N.of_nat (registered_tests (registry_of ds)))
  ∧ (let pf := state_of (test_application ds) in
     g_successes pf = N.of_nat (passes (test_calls pf))
     ∧ g_successes pf ≤ N.of_nat (registered_tests (registry_of ds)))
  ∧ (∀ coutBuffer idx group name test p,
       g_successes (state_of (run_test coutBuffer idx group name test p))
       = if passing test then SizeT.succ (g_successes p) else g_successes p)
  ∧ (∀ p, g_successes (state_of (print_info p)) = g_successes p)
  ∧ (∀ p, g_successes (state_of (print_summary p)) = g_successes p)
  ∧ (∀ coutBuffer group p,
       g_successes (state_of (announce_group coutBuffer group p)) = g_successes p)
  ∧ (∀ name func group p,
       g_successes (state_of (UnitTest name func group p)) = g_successes p).
Proof.
  intros Hlt. split_and!; try done.
  - intros gs1 group ts gs2 l1 l2 Hgo Hto. unfold mbind, Stmt_bind.
    rewrite print_info_spec by done. set (p1 := with_console _ _).
    destruct (run_tests_upto_ran p1 gs1 group l1) as (ran & Hpre & Hran).
    pose proof (prefix_length _ _ Hpre) as Hlen1.
    pose proof (schedule_split_length _ _ _ _ _ _ _ Hgo Hto) as Hlen2.
    pose proof (passes_le ran) as Hle. simpl.
    rewrite (ran_calls _ _ _ Hran), (ran_successes _ _ _ Hran).
    change (test_calls p1) with (@nil entry). change (g_successes p1) with 0.
    simpl. rewrite bumped_small by lia. split; [done|lia].
  - rewrite test_application_loaded. by apply main_final_counter.
  - apply run_test_counter.
  - intros p. apply reporter_keeps_counter.
  - intros p. apply reporter_keeps_counter.
  - intros cb group p.
    destruct (announce_group_spec cb group p) as (p' & -> & Hran & _).
    simpl. by rewrite (ran_successes _ _ _ Hran).
  - intros name func group p. rewrite UnitTest_spec. by destruct p.
Qed.


(** C5, as the code has it.  When no test is registered, [main] prints the
    information block, which says [Found 0 tests in 0 groups.], and returns
    [ReturnValue::pass] at once: [run_tests] and [print_summary] are not
    called, so [std::cout] is never redirected, no test is called, the log
    stays empty and no summary is printed. *)
Theorem no_tests_no_run_no_summary ds :
  registered_tests (registry_of ds) = 0%nat →
  ∃ p',
    test_application ds = Done ReturnValue.pass p'
    ∧ set_rdbuf_calls p' = []
    ∧ test_calls p' = []
    ∧ console p' = info_text 0 0
    ∧ g_testsLog p' = EmptyString
    ∧ g_successes p' = 0
    ∧ Text.occurs "SUMMARY:" (console p') = false
    ∧ Text.occurs "Passed 0 out of 0 tests." (console p') = false
    ∧ Text.occurs "Found 0 tests in 0 groups." (console p') = true.
Proof.
  intros Hz. apply registered_tests_zero in Hz as ->.
  rewrite test_application_loaded. change (registry_of []) with (∅ : gmap string (gmap string bTestFnType)).
  rewrite main_empty. eexists. split; [done|].
  split_and!; try done; by vm_compute.
Qed.

End Properties.

(** ** The assertion macro *)

Lemma find_last_of_from_absent i s c found :
  Assert.after_last c s = None → Text.find_last_of_from i s c found = found.
Proof.
  revert i found. induction s as [|a s IH]; intros i found H; [done|].
  simpl in *. destruct (Assert.after_last c s); [done|].
  destruct (Ascii.eqb a c); [done|]. by apply IH.
Qed.

Lemma after_last_app c s t :
  Assert.after_last c t = None →
  Assert.after_last c (s +:+ t) = (λ tail, tail +:+ t) <$> Assert.after_last c s.
Proof.
  intros Ht. induction s as [|a s IH]; [exact Ht|].
  change (String a s +:+ t) with (String a (s +:+ t)). simpl. rewrite IH.
  destruct (Assert.after_last c s); [done|]. simpl. by destruct (Ascii.eqb a c).
Qed.

Lemma find_last_of_from_present i s t c found tail :
  Assert.after_last c s = Some tail →
  Assert.after_last c t = None →
  ∃ n, Text.find_last_of_from i (s +:+ t) c found = bumped n i
       ∧ (n < String.length s)%nat
       ∧ Text.substr_nat (s +:+ t) n = Some (String c (tail +:+ t)).
Proof.
  intros Hs Ht. revert i found Hs. induction s as [|a s IH]; intros i found Hs; [done|].
  change (String a s +:+ t) with (String a (s +:+ t)).
  simpl in Hs. simpl Text.find_last_of_from.
  destruct (Assert.after_last c s) as [tail'|] eqn:Hs'.
  - injection Hs as ->.
    destruct (IH (SizeT.succ i) (if Ascii.eqb a c then i else found) eq_refl)
      as (n & Hfind & Hlt & Hsub).
    exists (S n). split_and!.
    + by rewrite Hfind, bumped_succ_inner.
    + simpl. lia.
    + done.
  - destruct (Ascii.eqb_spec a c) as [->|]; [|done]. injection Hs as ->.
    exists 0%nat. split_and!.
    + apply find_last_of_from_absent. by rewrite after_last_app, Hs'.
    + simpl. lia.
    + done.
Qed.

Lemma after_last_digits win32 (d : Decimal.uint) :
  Assert.after_last (Assert.bFILE_PATH_SEPARATOR win32) (NilEmpty.string_of_uint d) = None.
Proof.
  induction d; simpl; [done|rewrite IHd; by destruct win32..].
Qed.

Lemma after_last_line win32 line :
  Assert.after_last (Assert.bFILE_PATH_SEPARATOR win32) (":" +:+ Text.to_string line)
  = None.
Proof.
  change (":" +:+ Text.to_string line) with (String ":" (Text.to_string line)).
  simpl. unfold Text.to_string. rewrite after_last_digits. by destruct win32.
Qed.

(** What a failed assertion throws, for any file name short enough for its
    indices to fit [size_t]: the text from the last separator of the file
    name on, separator included, or the whole text when the file name has no
    separator. *)
Lemma bTEST_ASSERT_payload win32 file line :
  N.of_nat (String.length file) < SizeT.npos →
  Assert.bTEST_ASSERT win32 file line false
  = throws (std_exception
              match Assert.after_last (Assert.bFILE_PATH_SEPARATOR win32) file with
              | Some base =>
                  String (Assert.bFILE_PATH_SEPARATOR win32)
                         (base +:+ ":" +:+ Text.to_string line)
              | None => file +:+ ":" +:+ Text.to_string line
              end).
Proof.
  intros Hlen. unfold Assert.bTEST_ASSERT, Text.find_last_of. simpl negb. cbv iota.
  pose proof (after_last_line win32 line) as Hline.
  set (sep := Assert.bFILE_PATH_SEPARATOR win32) in *.
  assert (SizeT.npos < SizeT.modulus) as Hnpos by (by vm_compute).
  destruct (Assert.after_last sep file) as [base|] eqn:Hfile.
  - destruct (find_last_of_from_present 0 file _ sep SizeT.npos base Hfile Hline)
      as (n & -> & Hlt & Hsub).
    rewrite bumped_small by lia. rewrite N.add_0_l.
    destruct (N.eqb_spec (N.of_nat n) SizeT.npos) as [Heq|_]; [lia|].
    unfold Text.substr. by rewrite Nat2N.id, Hsub.
  - rewrite find_last_of_from_absent by (by rewrite after_last_app, Hfile).
    by rewrite N.eqb_refl.
Qed.

(** With a separator in the file name the text thrown is the location
    descriptor with that separator in front of it; without one it is the
    location descriptor itself. *)
Lemma bTEST_ASSERT_payload_descriptor win32 file line :
  N.of_nat (String.length file) < SizeT.npos →
  Assert.bTEST_ASSERT win32 file line false
  = throws (std_exception
              (let sep := Assert.bFILE_PATH_SEPARATOR win32 in
               match Assert.after_last sep file with
               | Some _ => String sep (Assert.location_descriptor sep file line)
               | None => Assert.location_descriptor sep file line
               end)).
Proof.
  intros Hlen. rewrite bTEST_ASSERT_payload by done.
  unfold Assert.location_descriptor, Assert.basename.
  by destruct (Assert.after_last _ file).
Qed.

(** ** The assertion macro on concrete inputs *)

(** C4.  A failed [bTEST_ASSERT] throws a [std::exception], but its text
    starts AT the last path separator, not after it: for a file
    [tests/test_1.cpp] and line 12 the text is [/test_1.cpp:12], while the
    file name and line number alone would be [test_1.cpp:12].  The same
    happens with the Windows separator.  A path without separator is kept
    whole, and a true condition throws nothing. *)
Theorem assert_location_keeps_separator :
  Assert.bTEST_ASSERT false "tests/test_1.cpp" 12 false
  = throws (std_exception "/test_1.cpp:12")
  ∧ Assert.location_descriptor "/" "tests/test_1.cpp" 12 = "test_1.cpp:12"
  ∧ Assert.bTEST_ASSERT true "C:\proj\tests\test_1.cpp" 12 false
    = throws (std_exception "\test_1.cpp:12")
  ∧ Assert.location_descriptor "\" "C:\proj\tests\test_1.cpp" 12 = "test_1.cpp:12"
  ∧ Assert.bTEST_ASSERT false "test_1.cpp" 12 false
    = throws (std_exception "test_1.cpp:12")
  ∧ Assert.bTEST_ASSERT false "tests/test_1.cpp" 12 true = returns
  ∧ Assert.bTEST_ASSERT false "tests/test_1.cpp" 12 false
    ≠ throws (std_exception (Assert.location_descriptor "/" "tests/test_1.cpp" 12)).
Proof.
  split_and!; [by vm_compute..|].
  intros H. vm_compute in H. discriminate H.
Qed.

(** ** The claims on the sample program *)

(** [map_to_list] is one admissible order of visit. *)
Lemma map_to_list_order {A} (m : gmap string A) : map_to_list m ≡ₚ map_to_list m.
Proof. reflexivity. Defined.




Lemma capture_released_witness :
  cout_rdbuf Samples.before_one_is_even = console_buf
  ∧ ∃ pk',
      run_test false console_buf 1 "example group" "one_is_even" Samples.one_is_even
               Samples.before_one_is_even = Done tt pk'
      ∧ cout_rdbuf pk' = console_buf
      ∧ console pk'
        = console Samples.before_one_is_even
          +:+ progress_text 1 "one_is_even" +:+ failed_text "/test_1.cpp:12"
      ∧ run_tests false map_to_list map_to_list (loaded Samples.registry)
        = run_tests_after false map_to_list console_buf "example group"
            [("two_is_even", Samples.one_is_odd); ("parses", Samples.parses)] [] 1 pk'.
Proof.
  destruct (capture_released_and_status_on_console false map_to_list map_to_list
              (loaded Samples.registry) [("ungrouped", Samples.ungrouped)]
              "example group" Samples.example_group [] []
              "one_is_even" Samples.one_is_even
              [("two_is_even", Samples.one_is_odd); ("parses", Samples.parses)]
              1 Samples.before_one_is_even)
    as (Hrd & Hcaught & _).
  - reflexivity.
  - vm_compute. reflexivity.
  - vm_compute. reflexivity.
  - vm_compute. repeat constructor.
  - vm_compute. reflexivity.
  - split; [exact Hrd|].
    destruct (Hcaught eq_refl) as (pk' & Hrun & Hrd' & Hcon & Hlink).
    exists pk'. rewrite Hrd in Hrd'.
    exact (conj Hrun (conj Hrd' (conj Hcon Hlink))).
Defined.

Lemma passed_never_exceeds_total_witness :
  g_successes (state_of (test_application false map_to_list map_to_list Samples.program))
  ≤ 4.
Proof.
  destruct (passed_never_exceeds_total false map_to_list map_to_list
              (λ m, map_to_list_order m) (λ m, map_to_list_order m) Samples.program)
    as (_ & _ & _ & [_ Hle] & _).
  - by vm_compute.
  - exact Hle.
Defined.

Lemma reregistration_witness :
  ∃ p',
    UnitTest "one_is_even" Samples.one_is_odd "example group" (loaded Samples.registry)
    = Done tt p'
    ∧ registered_tests (s_tests p') = 4%nat
    ∧ ∀ func,
        ("example group", "one_is_even", func) ∈ schedule map_to_list map_to_list (s_tests p')
        ↔ func = Samples.one_is_odd.
Proof.
  destruct (reregistration_replaces_action false map_to_list map_to_list
              (λ m, map_to_list_order m) (λ m, map_to_list_order m)
              "one_is_even" Samples.one_is_even Samples.one_is_odd "example group"
              Samples.example_group (loaded Samples.registry))
    as (p' & Hctor & _ & _ & _ & _ & _ & Hcount & Hsched & _); [by vm_compute..|].
  exists p'. split_and!; [exact Hctor|rewrite Hcount; by vm_compute|exact Hsched].
Defined.


Lemma no_tests_witness :
  ∃ p',
    test_application false map_to_list map_to_list [] = Done ReturnValue.pass p'
    ∧ set_rdbuf_calls p' = []
    ∧ Text.occurs "SUMMARY:" (console p') = false.
Proof.
  destruct (no_tests_no_run_no_summary false map_to_list map_to_list
              (λ m, map_to_list_order m) [])
    as (p' & Hmain & Hrd & _ & _ & _ & _ & Hsum & _); [by vm_compute|].
  exists p'. split_and!; [exact Hmain|exact Hrd|exact Hsum].
Defined.


(** On an empty registry the claim C5 fails as it is worded: [main] returns
    before [print_summary], so the console never shows a summary line. *)
Lemma no_tests_summary_counterexample :
  ¬ ∃ code p',
      test_application false map_to_list map_to_list [] = Done code p'
      ∧ set_rdbuf_calls p' = []
      ∧ Text.occurs "Passed 0 out of 0 tests." (console p') = true
      ∧ code = ReturnValue.pass.
Proof.
  intros (code & p' & Hmain & _ & Hocc & _).
  vm_compute in Hmain. injection Hmain as <- <-. by vm_compute in Hocc.
Qed.

(** On a test that throws an [int] the claim C6 fails as it is worded: the
    invocation is left by the exception, which is a failure exit of it, and
    [std::cout] is not pointed back at the buffer that was active before the
    test, neither when the body of the loop is left nor when [run_tests]
    is. *)
Lemma capture_not_released_counterexample :
  ends Samples.throws_int = throws (non_std "int")
  ∧ cout_rdbuf (loaded (registry_of [Registration "throws_int" Samples.throws_int None]))
    = console_buf
  ∧ (∀ pk,
       cout_rdbuf pk = console_buf →
       cout_rdbuf (state_of (run_test false console_buf 0 "ungrouped" "throws_int"
                               Samples.throws_int pk))
       ≠ cout_rdbuf pk)
  ∧ cout_rdbuf
      (state_of (run_tests false map_to_list map_to_list
                   (loaded (registry_of
                              [Registration "throws_int" Samples.throws_int None]))))
    ≠ console_buf.
Proof.
  split_and!; [done|done| |].
  - intros pk Hpk.
    destruct (run_test_uncaught false console_buf 0 "ungrouped" "throws_int"
                Samples.throws_int (non_std "int") pk eq_refl eq_refl)
      as (pk' & Hrun & _ & _ & Hrd' & _).
    rewrite Hrun. simpl. rewrite Hrd', Hpk. done.
  - intros H. vm_compute in H. discriminate H.
Qed.


(** ** The registry after start-up *)

Lemma registry_lookup_register name func group tests group' name' :
  registry_lookup (register name func group tests) group' name'
  = if bool_decide ((group, name) = (group', name')) then Some func
    else registry_lookup tests group' name'.
Proof.
  unfold registry_lookup, register.
  destruct (decide (group = group')) as [<-|Hg].
  - rewrite lookup_insert_eq. simpl.
    destruct (decide (name = name')) as [<-|Hn].
    + rewrite lookup_insert_eq. by rewrite bool_decide_eq_true_2.
    + rewrite lookup_insert_ne by done.
      rewrite bool_decide_eq_false_2 by congruence.
      by destruct (tests !! group).
  - rewrite lookup_insert_ne by done. by rewrite bool_decide_eq_false_2 by congruence.
Qed.

Lemma registry_of_snoc ds d :
  registry_of (ds ++ [d])
  = register (decl_name d) (decl_body d) (default "ungrouped" (decl_group d))
             (registry_of ds).
Proof. unfold registry_of. by rewrite foldl_snoc. Qed.

Lemma last_declared_snoc ds d group name :
  last_declared (ds ++ [d]) group name
  = if bool_decide (decl_key d = (group, name)) then Some (decl_body d)
    else last_declared ds group name.
Proof.
  induction ds as [|d' ds IH]; simpl.
  - done.
  - rewrite IH. case_bool_decide; [done|]. done.
Qed.

Lemma registry_lookup_registry_of ds group name :
  registry_lookup (registry_of ds) group name = last_declared ds group name.
Proof.
  induction ds as [|d ds IH] using rev_ind; [done|].
  by rewrite registry_of_snoc, registry_lookup_register, last_declared_snoc, IH.
Qed.

Lemma static_init_fresh ds :
  static_init ds fresh_process = Done tt (loaded (registry_of ds)).
Proof. by rewrite static_init_spec. Qed.

(** X1.  Start-up never fails, and afterwards the registry holds, for every
    group and name, the function of the last declaration made for that pair
    (a declaration without group counting for the group [ungrouped]), and
    nothing for a pair no declaration names.  Start-up touches nothing but
    the registry. *)
Theorem registry_holds_last_declarations ds :
  ∃ p,
    static_init ds fresh_process = Done tt p
    ∧ (∀ group name,
         registry_lookup (s_tests p) group name = last_declared ds group name)
    ∧ g_successes p = 0
    ∧ first p = true
    ∧ cout_rdbuf p = console_buf
    ∧ console p = EmptyString
    ∧ g_testsLog p = EmptyString
    ∧ test_calls p = [].
Proof.
  exists (loaded (registry_of ds)). split; [apply static_init_fresh|].
  split_and!; try done. intros group name. apply registry_lookup_registry_of.
Qed.

Lemma registry_of_groups_nonempty ds group in_grp :
  registry_of ds !! group = Some in_grp → size in_grp ≠ 0%nat.
Proof.
  revert in_grp. induction ds as [|d ds IH] using rev_ind; intros in_grp; [done|].
  rewrite registry_of_snoc. unfold register.
  destruct (decide (default "ungrouped" (decl_group d) = group)) as [<-|Hne].
  - rewrite lookup_insert_eq. intros [= <-].
    apply (map_size_ne_0_lookup_2 _ (decl_name d)). rewrite lookup_insert_eq. eauto.
  - rewrite lookup_insert_ne by done. apply IH.
Qed.

(** X2.  After start-up no group of the registry is empty, so the registry
    has no group exactly when no test was declared: the early return of
    [main] on [get_tests().size() == 0] is taken for the programs without
    tests and for no others. *)
Theorem no_empty_group_after_start_up ds :
  ∃ p,
    static_init ds fresh_process = Done tt p
    ∧ (∀ group in_grp, s_tests p !! group = Some in_grp → size in_grp ≠ 0%nat)
    ∧ (size (s_tests p) = 0%nat ↔ ds = [])
    ∧ (size (s_tests p) = 0%nat ↔ registered_tests (s_tests p) = 0%nat).
Proof.
  exists (loaded (registry_of ds)). split; [apply static_init_fresh|].
  change (s_tests (loaded (registry_of ds))) with (registry_of ds).
  assert (size (registry_of ds) = 0%nat ↔ ds = []) as Hsize.
  { split; [|by intros ->].
    destruct ds as [|d ds _] using rev_ind; [done|].
    rewrite registry_of_snoc. unfold register. intros H.
    apply map_size_empty_iff in H. by apply insert_non_empty in H. }
  split_and!.
  - apply registry_of_groups_nonempty.
  - done.
  - rewrite Hsize. split; [by intros ->|apply registered_tests_zero].
Qed.

Lemma last_declared_elem ds group name func :
  last_declared ds group name = Some func →
  ∃ d, d ∈ ds ∧ decl_key d = (group, name) ∧ decl_body d = func.
Proof.
  induction ds as [|d ds IH]; simpl; [done|].
  destruct (last_declared ds group name) as [func'|].
  - intros [= ->]. destruct (IH eq_refl) as (d' & Hin & Hk & Hb).
    exists d'. split_and!; [by right|done..].
  - case_bool_decide as Hk; [|done]. intros [= <-].
    exists d. split_and!; [by left|done..].
Qed.

Lemma last_declared_is_Some ds group name :
  is_Some (last_declared ds group name) ↔ (group, name) ∈ declared_keys ds.
Proof.
  unfold declared_keys. rewrite elem_of_list_to_set, list_elem_of_fmap. split.
  - intros [func H]. destruct (last_declared_elem _ _ _ _ H) as (d & Hin & Hk & _).
    by exists d.
  - intros (d & Hk & Hin). induction ds as [|d' ds IH]; [by apply elem_of_nil in Hin|].
    simpl. apply elem_of_cons in Hin as [<-|Hin].
    + destruct (last_declared ds group name); [by eauto|].
      rewrite bool_decide_eq_true_2 by done. by eauto.
    + destruct (IH Hin) as [func ->]. by eauto.
Qed.

Lemma last_declared_NoDup ds d group name :
  NoDup (decl_key <$> ds) →
  d ∈ ds →
  decl_key d = (group, name) →
  last_declared ds group name = Some (decl_body d).
Proof.
  intros Hnd Hin Hk. induction ds as [|d' ds IH]; [by apply elem_of_nil in Hin|].
  rewrite fmap_cons in Hnd. apply NoDup_cons in Hnd as [Hnotin Hnd].
  cbn [last_declared]. apply elem_of_cons in Hin as [<-|Hin].
  - destruct (last_declared ds group name) as [func|] eqn:Hl.
    + exfalso. apply Hnotin.
      destruct (last_declared_elem _ _ _ _ Hl) as (d0 & Hin0 & Hk0 & _).
      apply list_elem_of_fmap. exists d0. split; [congruence|done].
    + by rewrite bool_decide_eq_true_2.
  - by rewrite (IH Hnd Hin).
Qed.

Lemma last_declared_permutation ds ds' group name :
  NoDup (decl_key <$> ds) →
  ds ≡ₚ ds' →
  last_declared ds group name = last_declared ds' group name.
Proof.
  intros Hnd Hperm.
  assert (NoDup (decl_key <$> ds')) as Hnd' by (by rewrite <- Hperm).
  assert (∀ l l' func, NoDup (decl_key <$> l') → l ≡ₚ l' →
            last_declared l group name = Some func →
            last_declared l' group name = Some func) as Hstep.
  { intros l l' func Hn Hp Hl.
    destruct (last_declared_elem _ _ _ _ Hl) as (d & Hin & Hk & <-).
    rewrite Hp in Hin. by apply (last_declared_NoDup l' d). }
  destruct (last_declared ds group name) as [func|] eqn:Hl.
  - symmetry. by apply (Hstep ds ds').
  - destruct (last_declared ds' group name) as [func|] eqn:Hl'; [|done].
    rewrite (Hstep ds' ds func Hnd (symmetry Hperm) Hl') in Hl. done.
Qed.

Lemma registry_extensional (t1 t2 : gmap string (gmap string bTestFnType)) :
  (∀ group in_grp, t1 !! group = Some in_grp → size in_grp ≠ 0%nat) →
  (∀ group in_grp, t2 !! group = Some in_grp → size in_grp ≠ 0%nat) →
  (∀ group name, registry_lookup t1 group name = registry_lookup t2 group name) →
  t1 = t2.
Proof.
  assert (∀ (a b : gmap string (gmap string bTestFnType)) group in_grp,
            (∀ group in_grp, a !! group = Some in_grp → size in_grp ≠ 0%nat) →
            (∀ group name, registry_lookup a group name = registry_lookup b group name) →
            a !! group = Some in_grp → ∃ in_grp', b !! group = Some in_grp') as Hex.
  { intros a b group in_grp Hne Heq Ha.
    destruct (map_size_ne_0_lookup_1 _ (Hne _ _ Ha)) as (name & func & Hn).
    specialize (Heq group name). unfold registry_lookup in Heq.
    rewrite Ha in Heq. simpl in Heq. rewrite Hn in Heq.
    destruct (b !! group); [by eauto|done]. }
  intros H1 H2 Heq. apply map_eq. intros group.
  destruct (t1 !! group) as [in1|] eqn:E1.
  - destruct (Hex t1 t2 group in1 H1 Heq E1) as [in2 E2]. rewrite E2. f_equal.
    apply map_eq. intros name. specialize (Heq group name).
    unfold registry_lookup in Heq. by rewrite E1, E2 in Heq.
  - destruct (t2 !! group) as [in2|] eqn:E2; [|done].
    destruct (Hex t2 t1 group in2 H2 (λ g n, eq_sym (Heq g n)) E2) as [in1 E1'].
    congruence.
Qed.

(** X3.  When no group-and-name pair is declared twice, the order in which
    the constructors run during start-up does not matter for what the
    registry holds: after any two orders the same function is found under
    every group and name, and the numbers of groups and of tests are the
    same.  (Nothing is said about the order in which the two registries are
    visited afterwards, which an [unordered_map] does not fix.) *)
Theorem start_up_order_is_irrelevant ds ds' :
  NoDup (decl_key <$> ds) →
  ds ≡ₚ ds' →
  ∃ p p',
    static_init ds fresh_process = Done tt p
    ∧ static_init ds' fresh_process = Done tt p'
    ∧ (∀ group name,
         registry_lookup (s_tests p) group name
         = registry_lookup (s_tests p') group name)
    ∧ size (s_tests p) = size (s_tests p')
    ∧ registered_tests (s_tests p) = registered_tests (s_tests p').
Proof.
  intros Hnd Hperm.
  assert (registry_of ds = registry_of ds') as Heq.
  { apply registry_extensional.
    - apply registry_of_groups_nonempty.
    - apply registry_of_groups_nonempty.
    - intros group name. rewrite !registry_lookup_registry_of.
      by apply last_declared_permutation. }
  exists (loaded (registry_of ds)), (loaded (registry_of ds')).
  rewrite !static_init_fresh. split_and!; [done|done| | |]; simpl; by rewrite Heq.
Qed.

Lemma registered_tests_register_count name func group tests' :
  registered_tests (register name func group tests')
  = (registered_tests tests'
     + match registry_lookup tests' group name with Some _ => 0 | None => 1 end)%nat.
Proof.
  unfold register, registry_lookup. rewrite registered_tests_insert.
  destruct (tests' !! group) as [in_grp|] eqn:Hg; simpl.
  - rewrite (registered_tests_lookup _ _ _ Hg), map_size_insert.
    destruct (in_grp !! name); simpl; lia.
  - rewrite delete_id by done. rewrite map_size_insert, lookup_empty.
    simpl. rewrite map_size_empty. lia.
Qed.

Lemma registered_tests_registry_of ds :
  registered_tests (registry_of ds) = size (declared_keys ds)
  ∧ (size (declared_keys ds) ≤ length ds)%nat.
Proof.
  induction ds as [|d ds [IH1 IH2]] using rev_ind; [done|].
  rewrite registry_of_snoc, registered_tests_register_count.
  pose proof (last_declared_is_Some ds (default "ungrouped" (decl_group d)) (decl_name d))
    as Hkey.
  rewrite <- registry_lookup_registry_of in Hkey.
  assert (declared_keys (ds ++ [d]) = declared_keys ds ∪ {[decl_key d]}) as ->.
  { unfold declared_keys. rewrite fmap_app, list_to_set_app_L. simpl.
    by rewrite union_empty_r_L. }
  rewrite length_app. simpl.
  destruct (registry_lookup (registry_of ds) _ _) as [func|].
  - assert (decl_key d ∈ declared_keys ds) as Hin by (apply Hkey; eauto).
    assert (declared_keys ds ∪ {[decl_key d]} = declared_keys ds) as ->.
    { rewrite (comm_L (∪)). apply subseteq_union_1_L. by apply singleton_subseteq_l. }
    lia.
  - assert (decl_key d ∉ declared_keys ds) as Hnotin.
    { intros Hin. apply Hkey in Hin as [? ?]. done. }
    rewrite size_union by (by apply disjoint_singleton_r).
    rewrite size_singleton. lia.
Qed.

Section Totals.

Variable group_order :
  gmap string (gmap string bTestFnType) → list (string * gmap string bTestFnType).
Hypothesis group_order_perm : ∀ m, group_order m ≡ₚ map_to_list m.

(** X4.  After start-up, [get_number_of_tests] returns the number of
    different group-and-name pairs that were declared, whatever the order in
    which the outer map is visited; declarations that repeat a pair are
    counted once, so the total is at most the number of declarations. *)
Theorem total_is_number_of_distinct_pairs ds :
  N.of_nat (length ds) < SizeT.modulus →
  ∃ p p',
    static_init ds fresh_process = Done tt p
    ∧ get_number_of_tests group_order p
      = Done (N.of_nat (size (declared_keys ds))) p'
    ∧ (size (declared_keys ds) ≤ length ds)%nat
    ∧ (NoDup (decl_key <$> ds) → size (declared_keys ds) = length ds).
Proof.
  intros Hlt. destruct (registered_tests_registry_of ds) as [Hreg Hle].
  eexists _, _. split; [apply static_init_fresh|].
  rewrite get_number_of_tests_first by done.
  rewrite counted_loaded by (done || lia). rewrite Hreg.
  split_and!; [done|done|].
  intros Hnd. unfold declared_keys. by rewrite size_list_to_set, length_fmap.
Qed.

End Totals.

(** ** The reporter *)

Ltac unfold_stmt :=
  unfold print_info, print_summary, summary_block, get_number_of_tests,
    announce_group, run_test, call, try_catch_std_exception,
    print_line_separator, cout, set_rdbuf, update, read, mbind, mret,
    Stmt_bind, Stmt_ret, insert_chars.

Ltac text_eq' :=
  simpl; unfold progress_text, passed_text, failed_text, logged_text, info_text,
    summary_text, group_text, dashes;
  rewrite ?string_app_assoc; reflexivity.

Lemma string_app_empty_r (a : string) : a +:+ EmptyString = a.
Proof.
  induction a as [|x a IH]; [done|].
  change (String x (a +:+ EmptyString) = String x a). by rewrite IH.
Qed.

Section Reporter.

Variable bTESTS_NO_LOG : bool.
Variable group_order :
  gmap string (gmap string bTestFnType) → list (string * gmap string bTestFnType).
Hypothesis group_order_perm : ∀ m, group_order m ≡ₚ map_to_list m.

(** X5.  The first call of [get_number_of_tests] adds up the sizes of the
    groups and stores the sum; every later call returns the stored number
    and changes nothing, also when a test has been registered in between:
    the total is fixed by the first call. *)
Theorem get_number_of_tests_is_computed_once p :
  first p = true →
  numTests p = 0 →
  N.of_nat (registered_tests (s_tests p)) < SizeT.modulus →
  ∃ p1,
    get_number_of_tests group_order p
    = Done (N.of_nat (registered_tests (s_tests p))) p1
    ∧ s_tests p1 = s_tests p
    ∧ get_number_of_tests group_order p1
      = Done (N.of_nat (registered_tests (s_tests p))) p1
    ∧ ∀ name func group,
        (UnitTest name func group ;; get_number_of_tests group_order) p1
        = Done (N.of_nat (registered_tests (s_tests p)))
               (with_s_tests (register name func group (s_tests p)) p1).
Proof.
  intros Hf Hn Hlt. eexists. split.
  { rewrite get_number_of_tests_first by done.
    by rewrite (counted_registered group_order group_order_perm). }
  split_and!.
  - by destruct p.
  - by rewrite get_number_of_tests_cached.
  - intros name func group. unfold mbind, Stmt_bind. rewrite UnitTest_spec.
    rewrite get_number_of_tests_cached by done. by destruct p.
Qed.

(** X6.  With the total already counted and [std::cout] on the console,
    [print_summary] appends the summary block to the console and, when
    logging is compiled in, the same block to the log, redirecting
    [std::cout] to the log and back once; it leaves the counters, the
    registry and the record of calls alone, so a second call prints the
    same numbers again. *)
Theorem print_summary_reports_to_both_channels p :
  first p = false →
  cout_rdbuf p = console_buf →
  ∃ p1 p2,
    print_summary bTESTS_NO_LOG group_order p = Done tt p1
    ∧ console p1 = console p +:+ summary_text (g_successes p) (numTests p)
    ∧ g_testsLog p1
      = (if bTESTS_NO_LOG then g_testsLog p
         else g_testsLog p +:+ summary_text (g_successes p) (numTests p))
    ∧ set_rdbuf_calls p1
      = set_rdbuf_calls p ++ (if bTESTS_NO_LOG then [] else [log_buf; console_buf])
    ∧ cout_rdbuf p1 = console_buf
    ∧ g_successes p1 = g_successes p
    ∧ numTests p1 = numTests p
    ∧ s_tests p1 = s_tests p
    ∧ test_calls p1 = test_calls p
    ∧ print_summary bTESTS_NO_LOG group_order p1 = Done tt p2
    ∧ console p2 = console p1 +:+ summary_text (g_successes p) (numTests p).
Proof.
  intros Hf Hrd.
  assert (∀ q, first q = false → cout_rdbuf q = console_buf →
            ∃ q1,
              print_summary bTESTS_NO_LOG group_order q = Done tt q1
              ∧ console q1 = console q +:+ summary_text (g_successes q) (numTests q)
              ∧ g_testsLog q1
                = (if bTESTS_NO_LOG then g_testsLog q
                   else g_testsLog q +:+ summary_text (g_successes q) (numTests q))
              ∧ set_rdbuf_calls q1
                = set_rdbuf_calls q
                  ++ (if bTESTS_NO_LOG then [] else [log_buf; console_buf])
              ∧ cout_rdbuf q1 = console_buf
              ∧ g_successes q1 = g_successes q
              ∧ numTests q1 = numTests q
              ∧ s_tests q1 = s_tests q
              ∧ test_calls q1 = test_calls q
              ∧ first q1 = false) as Hone.
  { intros q Hfq Hrdq. unfold_stmt.
    destruct q as [reg succ fst num rd con log rds calls]. simpl in *. subst.
    destruct bTESTS_NO_LOG; simpl; eexists; (split; [reflexivity|]); simpl;
      split_and!; try done; try text_eq'; by rewrite ?app_nil_r, <- ?app_assoc. }
  destruct (Hone p Hf Hrd)
    as (p1 & Hrun & Hcon & Hlog & Hrds & Hrd1 & Hs & Hn & Hreg & Hcalls & Hf1).
  destruct (Hone p1 Hf1 Hrd1) as (p2 & Hrun2 & Hcon2 & _).
  exists p1, p2. split_and!; try done. by rewrite Hcon2, Hs, Hn.
Qed.

End Reporter.

(** ** What a complete run prints *)

Section RunTranscript.

Variable bTESTS_NO_LOG : bool.
Variable group_order :
  gmap string (gmap string bTestFnType) → list (string * gmap string bTestFnType).
Variable test_order : gmap string bTestFnType → list (string * bTestFnType).
Hypothesis group_order_perm : ∀ m, group_order m ≡ₚ map_to_list m.
Hypothesis test_order_perm : ∀ m, test_order m ≡ₚ map_to_list m.

Lemma printed_trans c1 l1 r1 c2 l2 r2 p1 p2 p3 :
  printed bTESTS_NO_LOG c1 l1 r1 p1 p2 → printed bTESTS_NO_LOG c2 l2 r2 p2 p3 →
  printed bTESTS_NO_LOG (c1 +:+ c2) (l1 +:+ l2) (r1 ++ r2) p1 p3.
Proof.
  intros [Hc1 Hl1 Hr1 _] [Hc2 Hl2 Hr2 Hrd]. split.
  - by rewrite Hc2, Hc1, string_app_assoc.
  - rewrite Hl2, Hl1, string_app_assoc. unfold when_logging.
    by destruct bTESTS_NO_LOG.
  - by rewrite Hr2, Hr1, app_assoc.
  - done.
Qed.

Lemma run_test_printed idx group name test p :
  contained test = true →
  cout_rdbuf p = console_buf →
  ∃ p', run_test bTESTS_NO_LOG console_buf idx group name test p = Done tt p'
        ∧ printed bTESTS_NO_LOG (progress_text idx name +:+ verdict_text test)
                  (logged_text name test (verdict_text test))
                  [capture_buf bTESTS_NO_LOG; console_buf] p p'.
Proof.
  intros Hc Hrd. unfold verdict_text.
  destruct p as [reg succ fst num rd con log rds calls]. simpl in Hrd. subst rd.
  destruct (contained_cases test)
    as [[Hends _]|[(e & what & Hends & Hcatch & _)|(e & _ & _ & Hn)]];
    [| |congruence].
  - unfold_stmt. rewrite Hends.
    destruct bTESTS_NO_LOG; simpl; eexists; (split; [reflexivity|]);
      split; simpl; try done; try text_eq'; by rewrite ?string_app_empty_r, <- ?app_assoc.
  - unfold_stmt. rewrite Hends, Hcatch.
    destruct bTESTS_NO_LOG; simpl; eexists; (split; [reflexivity|]);
      split; simpl; try done; try text_eq'; by rewrite ?string_app_empty_r, <- ?app_assoc.
Qed.

Lemma for_tests_printed group tests idx p :
  Forall (λ nt, contained nt.2 = true) tests →
  cout_rdbuf p = console_buf →
  ∃ p', for_tests bTESTS_NO_LOG console_buf group tests idx p
        = Done (bumped (length tests) idx) p'
        ∧ printed bTESTS_NO_LOG (tests_console tests idx) (tests_log tests)
                  (tests_redirections bTESTS_NO_LOG console_buf tests) p p'.
Proof.
  revert idx p. induction tests as [|[name test] tests IH]; intros idx p Hall Hrd.
  { exists p. split; [done|]. split; simpl; try done.
    - by rewrite string_app_empty_r.
    - unfold when_logging. destruct bTESTS_NO_LOG; by rewrite string_app_empty_r.
    - by rewrite app_nil_r. }
  apply Forall_cons in Hall as [Hc Hall]. simpl in Hc.
  destruct (run_test_printed idx group name test p Hc Hrd) as (p1 & Hrun & Hp1).
  destruct (IH (SizeT.succ idx) p1 Hall (printed_rdbuf _ _ _ _ _ _ Hp1))
    as (p2 & Hrest & Hp2).
  exists p2. split.
  - simpl for_tests. unfold mbind, Stmt_bind. rewrite Hrun, Hrest.
    by rewrite bumped_succ_inner.
  - pose proof (printed_trans _ _ _ _ _ _ _ _ _ Hp1 Hp2) as H.
    simpl tests_console. simpl tests_log. rewrite string_app_assoc in H. exact H.
Qed.

Lemma announce_group_printed group p :
  cout_rdbuf p = console_buf →
  ∃ p', announce_group bTESTS_NO_LOG console_buf group p = Done tt p'
        ∧ printed bTESTS_NO_LOG (group_text group) (group_text group)
                  (if bTESTS_NO_LOG then [] else [log_buf; console_buf]) p p'.
Proof.
  intros Hrd. destruct p as [reg succ fst num rd con log rds calls].
  simpl in Hrd. subst rd. unfold_stmt.
  destruct bTESTS_NO_LOG; simpl; eexists; (split; [reflexivity|]);
    split; simpl; try done; by rewrite ?string_app_empty_r, ?app_nil_r, <- ?app_assoc.
Qed.

Lemma for_groups_printed groups idx p :
  Forall (λ c : entry, contained c.2 = true) (entries_of test_order groups) →
  cout_rdbuf p = console_buf →
  ∃ p', for_groups bTESTS_NO_LOG test_order console_buf groups idx p
        = Done (bumped (length (entries_of test_order groups)) idx) p'
        ∧ printed bTESTS_NO_LOG (groups_console test_order groups idx)
                  (groups_log test_order groups)
                  (groups_redirections bTESTS_NO_LOG test_order console_buf groups)
                  p p'.
Proof.
  revert idx p. induction groups as [|[group tests] groups IH]; intros idx p Hall Hrd.
  { exists p. split; [done|]. split; simpl; try done.
    - by rewrite string_app_empty_r.
    - unfold when_logging. destruct bTESTS_NO_LOG; by rewrite string_app_empty_r.
    - by rewrite app_nil_r. }
  rewrite entries_of_cons in Hall. apply Forall_app in Hall as [Hhere Hall].
  apply Forall_fmap in Hhere.
  destruct (announce_group_printed group p Hrd) as (p1 & Hann & Hp1).
  destruct (for_tests_printed group (test_order tests) idx p1 Hhere
              (printed_rdbuf _ _ _ _ _ _ Hp1)) as (p2 & Htests & Hp2).
  destruct (IH (bumped (length (test_order tests)) idx) p2 Hall
              (printed_rdbuf _ _ _ _ _ _ Hp2)) as (p3 & Hrest & Hp3).
  exists p3. split.
  - simpl for_groups. unfold mbind, Stmt_bind. rewrite Hann, Htests, Hrest.
    by rewrite entries_of_cons, length_app, length_fmap, bumped_add.
  - pose proof (printed_trans _ _ _ _ _ _ _ _ _ Hp1
                  (printed_trans _ _ _ _ _ _ _ _ _ Hp2 Hp3)) as H.
    exact H.
Qed.

Lemma run_tests_printed p :
  Forall (λ c : entry, contained c.2 = true)
         (schedule group_order test_order (s_tests p)) →
  cout_rdbuf p = console_buf →
  ∃ p',
    run_tests bTESTS_NO_LOG group_order test_order p = Done tt p'
    ∧ console p'
      = console p +:+ ("RUNNING TESTS..." +:+ Text.LF)
        +:+ groups_console test_order (group_order (s_tests p)) 0
    ∧ g_testsLog p'
      = g_testsLog p
        +:+ when_logging bTESTS_NO_LOG (groups_log test_order (group_order (s_tests p)))
    ∧ set_rdbuf_calls p'
      = set_rdbuf_calls p
        ++ groups_redirections bTESTS_NO_LOG test_order console_buf
             (group_order (s_tests p))
    ∧ cout_rdbuf p' = console_buf.
Proof.
  intros Hall Hrd.
  unfold run_tests, mbind, Stmt_bind, read, cout, update, mret, Stmt_ret.
  set (p0 := insert_chars ("RUNNING TESTS..." +:+ Text.LF) p).
  assert (s_tests p0 = s_tests p ∧ cout_rdbuf p0 = console_buf
          ∧ console p0 = console p +:+ ("RUNNING TESTS..." +:+ Text.LF)
          ∧ g_testsLog p0 = g_testsLog p
          ∧ set_rdbuf_calls p0 = set_rdbuf_calls p) as (Hreg & Hrd0 & Hcon & Hlog & Hrds).
  { subst p0. destruct p as [reg succ fst num rd con log rds calls].
    simpl in Hrd. by subst rd. }
  rewrite Hreg, Hrd.
  destruct (for_groups_printed (group_order (s_tests p)) 0 p0 Hall Hrd0)
    as (p' & -> & [Hc Hl Hr Hrd']).
  exists p'. split_and!; try done.
  - by rewrite Hc, Hcon, string_app_assoc.
  - by rewrite Hl, Hlog.
  - by rewrite Hr, Hrds.
Qed.

(** X7.  For tests whose only use of [std::cout] is to insert characters
    (and, in the build without log, that insert none): when every
    registered test returns or throws something the handler catches and
    [std::cout] is on the console, [run_tests] comes to
    its end and leaves on the console the heading, then group after group
    its announcement followed by one line per test of the group (progress
    text and verdict), the tests being numbered through all groups; nothing
    a test printed is among it.  When logging is compiled in, the log gets
    the same announcements and, for each test, its banner, what it printed
    and its verdict; otherwise the log gets nothing.  Every redirection of
    [std::cout] is followed by its restoration. *)
Theorem run_tests_transcript p :
  Forall (λ c : entry, contained c.2 = true)
         (schedule group_order test_order (s_tests p)) →
  Forall (λ c : entry, null_safe bTESTS_NO_LOG c.2 = true)
         (schedule group_order test_order (s_tests p)) →
  cout_rdbuf p = console_buf →
  ∃ p',
    run_tests bTESTS_NO_LOG group_order test_order p = Done tt p'
    ∧ console p'
      = console p +:+ ("RUNNING TESTS..." +:+ Text.LF)
        +:+ groups_console test_order (group_order (s_tests p)) 0
    ∧ g_testsLog p'
      = g_testsLog p
        +:+ when_logging bTESTS_NO_LOG (groups_log test_order (group_order (s_tests p)))
    ∧ set_rdbuf_calls p'
      = set_rdbuf_calls p
        ++ groups_redirections bTESTS_NO_LOG test_order console_buf
             (group_order (s_tests p))
    ∧ cout_rdbuf p' = console_buf.
Proof. intros Hall _. by apply run_tests_printed. Qed.



Lemma registry_of_size_zero ds : size (registry_of ds) = 0%nat ↔ ds = [].
Proof.
  split; [|by intros ->].
  destruct ds as [|d ds _] using rev_ind; [done|].
  rewrite registry_of_snoc. unfold register. intros H.
  apply map_size_empty_iff in H. by apply insert_non_empty in H.
Qed.

(** X9.  For a program with at least one test in which every call returns
    or is caught, the tests using [std::cout] only to insert characters
    (and, in the build without log, inserting none), [main] returns, and the console then holds the
    information block with the numbers of tests and groups, the transcript
    of [run_tests], and the summary block with the number of calls that
    returned and the number of tests; the log, when compiled in, holds the
    log transcript of [run_tests] followed by the same summary block, and is
    empty otherwise. *)
Theorem application_transcript ds :
  N.of_nat (registered_tests (registry_of ds)) < SizeT.modulus →
  ds ≠ [] →
  Forall (λ c : entry, contained c.2 = true)
         (schedule group_order test_order (registry_of ds)) →
  Forall (λ c : entry, null_safe bTESTS_NO_LOG c.2 = true)
         (schedule group_order test_order (registry_of ds)) →
  ∃ code p',
    test_application bTESTS_NO_LOG group_order test_order ds = Done code p'
    ∧ console p'
      = info_text (N.of_nat (registered_tests (registry_of ds)))
                  (N.of_nat (size (registry_of ds)))
        +:+ ("RUNNING TESTS..." +:+ Text.LF)
        +:+ groups_console test_order (group_order (registry_of ds)) 0
        +:+ summary_text
              (N.of_nat (passes (schedule group_order test_order (registry_of ds))))
              (N.of_nat (registered_tests (registry_of ds)))
    ∧ g_testsLog p'
      = when_logging bTESTS_NO_LOG
          (groups_log test_order (group_order (registry_of ds))
           +:+ summary_text
                 (N.of_nat (passes (schedule group_order test_order (registry_of ds))))
                 (N.of_nat (registered_tests (registry_of ds))))
    ∧ cout_rdbuf p' = console_buf.
Proof.
  intros Hlt Hne Hall _. rewrite test_application_loaded.
  set (reg := registry_of ds) in *.
  unfold main, mbind, Stmt_bind, read, mret, Stmt_ret.
  rewrite (print_info_spec group_order) by done.
  rewrite (counted_loaded group_order group_order_perm) by done.
  set (p1 := with_console _ _).
  assert (s_tests p1 = reg ∧ g_successes p1 = 0 ∧ first p1 = false
          ∧ numTests p1 = N.of_nat (registered_tests reg)
          ∧ cout_rdbuf p1 = console_buf
          ∧ console p1 = info_text (N.of_nat (registered_tests reg)) (N.of_nat (size reg))
          ∧ g_testsLog p1 = EmptyString)
    as (Hreg & Hsucc & Hfirst & Hnum & Hrd & Hcon & Hlog) by done.
  rewrite Hreg.
  destruct (N.eqb_spec (N.of_nat (size reg)) 0) as [Hz|_].
  { exfalso. apply Hne. apply registry_of_size_zero. fold reg. lia. }
  rewrite <- Hreg in Hall.
  destruct (run_tests_printed p1 Hall Hrd) as (p2 & Hrun & Hcon2 & Hlog2 & _ & Hrd2).
  destruct (run_tests_completes bTESTS_NO_LOG group_order test_order p1 Hall)
    as (p2' & Hrun' & Hran).
  rewrite Hrun in Hrun'. injection Hrun' as <-. rewrite Hrun.
  rewrite Hreg in *.
  pose proof (passes_le (schedule group_order test_order reg)) as Hle.
  rewrite (length_schedule group_order test_order group_order_perm test_order_perm) in Hle.
  assert (g_successes p2 = N.of_nat (passes (schedule group_order test_order reg))) as Hs2.
  { rewrite (ran_successes _ _ _ Hran), Hsucc, bumped_small by lia. lia. }
  assert (numTests p2 = N.of_nat (registered_tests reg)) as Hn2.
  { by rewrite (ran_numTests _ _ _ Hran). }
  destruct (print_summary_spec bTESTS_NO_LOG group_order p2)
    as (p3 & -> & Hran3 & Hrd3 & Hcon3 & Hlog3).
  { by rewrite (ran_first _ _ _ Hran). }
  { done. }
  destruct (get_number_of_tests group_order p3) as [total p4|e p4] eqn:Hget.
  - assert (p4 = p3) as ->.
    { rewrite get_number_of_tests_cached in Hget
        by (by rewrite (ran_first _ _ _ Hran3), (ran_first _ _ _ Hran)).
      by injection Hget. }
    eexists _, p3. split; [reflexivity|]. split_and!.
    + rewrite Hcon3, Hcon2, Hcon, Hs2, Hn2. by rewrite !string_app_assoc.
    + rewrite Hlog3, Hlog2, Hlog, Hs2, Hn2. unfold when_logging.
      destruct bTESTS_NO_LOG; [done|]. done.
    + done.
  - rewrite get_number_of_tests_cached in Hget
      by (by rewrite (ran_first _ _ _ Hran3), (ran_first _ _ _ Hran)).
    done.
Qed.

End RunTranscript.

(** ** Invariants of a run *)

Lemma preserves_ret {A} I (a : A) : preserves I (mret a).
Proof. by intros p Hp. Qed.

Lemma preserves_bind {A B} I (m : Stmt A) (k : A → Stmt B) :
  preserves I m → (∀ a, preserves I (k a)) → preserves I (m ≫= k).
Proof.
  intros Hm Hk p Hp. unfold mbind, Stmt_bind. specialize (Hm p Hp).
  destruct (m p) as [a p'|e p']; [by apply Hk|done].
Qed.

Lemma preserves_read_bind {A B} I (f : process → A) (k : A → Stmt B) :
  (∀ p0, I p0 → preserves I (k (f p0))) → preserves I (read f ≫= k).
Proof. intros Hk p Hp. by apply (Hk p Hp p Hp). Qed.

Lemma preserves_update I (f : process → process) :
  (∀ p, I p → I (f p)) → preserves I (update f).
Proof. intros Hf p Hp. by apply Hf. Qed.

Lemma preserves_try_catch {A} I (body : Stmt A) (handler : string → Stmt A) :
  preserves I body → (∀ what, preserves I (handler what)) →
  preserves I (try_catch_std_exception body handler).
Proof.
  intros Hb Hh p Hp. unfold try_catch_std_exception. specialize (Hb p Hp).
  destruct (body p) as [a p'|e p']; [done|].
  destruct (catch_std_exception e); [by apply Hh|done].
Qed.

Section Invariants.

Variable bTESTS_NO_LOG : bool.
Variable group_order :
  gmap string (gmap string bTestFnType) → list (string * gmap string bTestFnType).
Variable test_order : gmap string bTestFnType → list (string * bTestFnType).

Variable I : process → Prop.
Variable allowed : streambuf → Prop.
Hypothesis I_stable : stable I allowed.
Hypothesis capture_allowed : allowed (capture_buf bTESTS_NO_LOG).

Lemma preserves_cout text : preserves I (cout text).
Proof. apply preserves_update. intros p. apply (stable_chars _ _ I_stable). Qed.

Lemma preserves_set_rdbuf sb : allowed sb → preserves I (set_rdbuf sb).
Proof.
  intros Hsb. apply preserves_update. intros p.
  by apply (stable_set_rdbuf _ _ I_stable).
Qed.

Lemma preserves_call group name test : preserves I (call group name test).
Proof.
  intros p Hp. unfold call.
  assert (I (insert_chars (prints test) (with_test_call (group, name, test) p))) as H.
  { apply (stable_chars _ _ I_stable). by apply (stable_call _ _ I_stable). }
  by destruct (ends test).
Qed.

Lemma preserves_print_line_separator : preserves I print_line_separator.
Proof. apply preserves_cout. Qed.

Lemma preserves_get_number_of_tests : preserves I (get_number_of_tests group_order).
Proof.
  unfold get_number_of_tests. apply preserves_read_bind. intros p0 _.
  apply preserves_bind.
  - destruct (first p0); [|apply preserves_ret].
    apply preserves_read_bind. intros p1 _. apply preserves_bind.
    + apply preserves_update. intros p. apply (stable_numTests _ _ I_stable).
    + intros _. apply preserves_update. intros p. apply (stable_first _ _ I_stable).
  - intros _. intros p Hp. done.
Qed.

Lemma preserves_print_info : preserves I (print_info group_order).
Proof.
  unfold print_info.
  apply preserves_bind; [apply preserves_print_line_separator|intros _].
  apply preserves_bind; [apply preserves_cout|intros _].
  apply preserves_bind; [apply preserves_get_number_of_tests|intros n].
  apply preserves_bind; [apply preserves_get_number_of_tests|intros n'].
  apply preserves_read_bind. intros p0 _.
  apply preserves_bind; [apply preserves_cout|intros _].
  apply preserves_print_line_separator.
Qed.

Lemma preserves_summary_block : preserves I (summary_block group_order).
Proof.
  unfold summary_block.
  apply preserves_bind; [apply preserves_print_line_separator|intros _].
  apply preserves_bind; [apply preserves_cout|intros _].
  apply preserves_read_bind. intros p0 _.
  apply preserves_bind; [apply preserves_get_number_of_tests|intros n].
  apply preserves_bind; [apply preserves_cout|intros _].
  apply preserves_print_line_separator.
Qed.

Lemma preserves_print_summary :
  preserves I (print_summary bTESTS_NO_LOG group_order).
Proof.
  unfold print_summary.
  apply preserves_bind; [apply preserves_summary_block|intros _].
  destruct bTESTS_NO_LOG eqn:Hlog; [apply preserves_ret|].
  apply preserves_read_bind. intros p0 Hp0.
  apply preserves_bind; [by apply preserves_set_rdbuf|intros _].
  apply preserves_bind; [apply preserves_summary_block|intros _].
  apply preserves_set_rdbuf. by apply (stable_saved _ _ I_stable).
Qed.

Lemma preserves_announce_group coutBuffer group :
  allowed coutBuffer → preserves I (announce_group bTESTS_NO_LOG coutBuffer group).
Proof.
  intros Hcb. unfold announce_group.
  apply preserves_bind; [apply preserves_cout|intros _].
  destruct bTESTS_NO_LOG eqn:Hlog; [apply preserves_ret|].
  apply preserves_bind; [by apply preserves_set_rdbuf|intros _].
  apply preserves_bind; [apply preserves_cout|intros _].
  by apply preserves_set_rdbuf.
Qed.

Lemma preserves_run_test coutBuffer idx group name test :
  allowed coutBuffer →
  preserves I (run_test bTESTS_NO_LOG coutBuffer idx group name test).
Proof.
  intros Hcb. unfold run_test.
  apply preserves_bind; [apply preserves_cout|intros _].
  apply preserves_bind.
  { destruct bTESTS_NO_LOG eqn:Hlog; [by apply preserves_set_rdbuf|].
    apply preserves_bind; [by apply preserves_set_rdbuf|intros _].
    apply preserves_bind; [apply preserves_print_line_separator|intros _].
    apply preserves_cout. }
  intros _. apply preserves_try_catch.
  - apply preserves_bind; [apply preserves_call|intros _].
    apply preserves_bind.
    { destruct bTESTS_NO_LOG; [apply preserves_ret|].
      apply preserves_bind; [apply preserves_cout|intros _].
      apply preserves_print_line_separator. }
    intros _. apply preserves_bind; [by apply preserves_set_rdbuf|intros _].
    apply preserves_bind; [apply preserves_cout|intros _].
    apply preserves_update. intros p. apply (stable_successes _ _ I_stable).
  - intros what. apply preserves_bind.
    { destruct bTESTS_NO_LOG; [apply preserves_ret|].
      apply preserves_bind; [apply preserves_cout|intros _].
      apply preserves_print_line_separator. }
    intros _. apply preserves_bind; [by apply preserves_set_rdbuf|intros _].
    apply preserves_cout.
Qed.

Lemma preserves_for_tests coutBuffer group tests idx :
  allowed coutBuffer →
  preserves I (for_tests bTESTS_NO_LOG coutBuffer group tests idx).
Proof.
  intros Hcb. revert idx. induction tests as [|[name test] tests IH]; intros idx.
  - apply preserves_ret.
  - simpl. apply preserves_bind; [by apply preserves_run_test|intros _]. apply IH.
Qed.

Lemma preserves_for_groups coutBuffer groups idx :
  allowed coutBuffer →
  preserves I (for_groups bTESTS_NO_LOG test_order coutBuffer groups idx).
Proof.
  intros Hcb. revert idx. induction groups as [|[group tests] groups IH]; intros idx.
  - apply preserves_ret.
  - simpl. apply preserves_bind; [by apply preserves_announce_group|intros _].
    apply preserves_bind; [by apply preserves_for_tests|intros idx']. apply IH.
Qed.

Lemma preserves_run_tests :
  preserves I (run_tests bTESTS_NO_LOG group_order test_order).
Proof.
  unfold run_tests. apply preserves_read_bind. intros p0 Hp0.
  pose proof (stable_saved _ _ I_stable p0 Hp0) as Hcb.
  apply preserves_bind; [apply preserves_cout|intros _].
  apply preserves_read_bind. intros p1 _.
  apply preserves_bind; [by apply preserves_for_groups|intros _].
  apply preserves_ret.
Qed.

Lemma preserves_main : preserves I (main bTESTS_NO_LOG group_order test_order).
Proof.
  unfold main.
  apply preserves_bind; [apply preserves_print_info|intros _].
  apply preserves_read_bind. intros p0 _.
  destruct (_ =? 0); [apply preserves_ret|].
  apply preserves_bind; [apply preserves_run_tests|intros _].
  apply preserves_bind; [apply preserves_print_summary|intros _].
  apply preserves_read_bind. intros p1 _.
  apply preserves_bind; [apply preserves_get_number_of_tests|intros total].
  apply preserves_ret.
Qed.

End Invariants.

Section RunInvariants.

Variable bTESTS_NO_LOG : bool.
Variable group_order :
  gmap string (gmap string bTestFnType) → list (string * gmap string bTestFnType).
Variable test_order : gmap string bTestFnType → list (string * bTestFnType).

Lemma registry_and_calls_stable tests calls :
  stable (λ q, s_tests q = tests ∧ calls `prefix_of` test_calls q) (λ _, True).
Proof.
  split.
  - intros text [reg succ fst num rd con log rds cs] [? ?]. unfold insert_chars.
    by destruct rd.
  - by intros sb [] _ [? ?].
  - intros c [reg succ fst num rd con log rds cs] [? Hpre]. simpl in *.
    split; [done|]. by apply prefix_app_r.
  - by intros v [] [? ?].
  - by intros v [] [? ?].
  - by intros v [] [? ?].
  - done.
Qed.

(** X10.  [main] only reads the registry: however it ends, and from
    whatever state it starts, the registry is the one it found, and the
    record of calls made through test function pointers has only grown. *)
Theorem registry_is_read_only_while_running p :
  s_tests (state_of (main bTESTS_NO_LOG group_order test_order p)) = s_tests p
  ∧ test_calls p
    `prefix_of` test_calls (state_of (main bTESTS_NO_LOG group_order test_order p)).
Proof.
  apply (preserves_main bTESTS_NO_LOG group_order test_order _ _
           (registry_and_calls_stable (s_tests p) (test_calls p)) I p).
  done.
Qed.

Lemma capture_discipline_stable :
  stable (λ q, (cout_rdbuf q = console_buf ∨ cout_rdbuf q = capture_buf bTESTS_NO_LOG)
               ∧ Forall (λ sb, sb = capture_buf bTESTS_NO_LOG ∨ sb = console_buf)
                        (set_rdbuf_calls q)
               ∧ (bTESTS_NO_LOG = true → g_testsLog q = EmptyString))
         (λ sb, sb = capture_buf bTESTS_NO_LOG ∨ sb = console_buf).
Proof.
  split.
  - intros text [reg succ fst num rd con log rds cs] (Hrd & Hcalls & Hlog).
    unfold insert_chars. simpl in *.
    destruct rd; simpl; split_and!; try done.
    intros Hno. rewrite Hno in Hrd. by destruct Hrd.
  - intros sb [reg succ fst num rd con log rds cs] Hsb (Hrd & Hcalls & Hlog).
    simpl in *. split_and!; [by destruct Hsb; eauto| |done].
    apply Forall_app. split; [done|]. by apply Forall_singleton.
  - by intros c [] (? & ? & ?).
  - by intros v [] (? & ? & ?).
  - by intros v [] (? & ? & ?).
  - by intros v [] (? & ? & ?).
  - intros [reg succ fst num rd con log rds cs] (Hrd & _). simpl in *.
    by destruct Hrd; eauto.
Qed.

(** X11.  However the application ends, every [set_rdbuf] call the runner
    itself has made points [std::cout] either at the capture buffer of the
    build (the buffer of the log file, or [nullptr] under [bTESTS_NO_LOG])
    or at the console buffer, and the runner of a build with
    [bTESTS_NO_LOG] has inserted nothing into the log.  Both facts pass to
    every initial part of a run, so they also hold of a run that is cut
    short.  What a test does to the buffer of [std::cout] on its own is not
    covered. *)
Theorem runner_redirects_only_to_capture_or_console ds :
  Forall (λ sb, sb = capture_buf bTESTS_NO_LOG ∨ sb = console_buf)
         (set_rdbuf_calls
            (state_of (test_application bTESTS_NO_LOG group_order test_order ds)))
  ∧ (bTESTS_NO_LOG = true →
     g_testsLog (state_of (test_application bTESTS_NO_LOG group_order test_order ds))
     = EmptyString).
Proof.
  rewrite test_application_loaded.
  destruct (preserves_main bTESTS_NO_LOG group_order test_order _ _
              capture_discipline_stable (or_introl eq_refl) (loaded (registry_of ds)))
    as (_ & Hcalls & Hlog).
  - split_and!; [by left|constructor|done].
  - by split.
Qed.

Hypothesis group_order_perm : ∀ m, group_order m ≡ₚ map_to_list m.
Hypothesis test_order_perm : ∀ m, test_order m ≡ₚ map_to_list m.

(** X12.  The only way the application is left by an exception is a test
    that throws something the handler does not match: the registration and
    the reporter never throw.  The run then stops in the middle of that
    test: the tests scheduled after it are not called, [g_successes] counts
    the calls before it that returned, and [std::cout] is left pointing at
    the capture buffer, the restoration being skipped. *)
Theorem capture_is_not_released_when_run_is_aborted ds e p' :
  N.of_nat (registered_tests (registry_of ds)) < SizeT.modulus →
  test_application bTESTS_NO_LOG group_order test_order ds = Unwinding e p' →
  catch_std_exception e = None
  ∧ cout_rdbuf p' = capture_buf bTESTS_NO_LOG
  ∧ cout_rdbuf p' ≠ console_buf
  ∧ ∃ (E1 : list entry) (c : entry) (E2 : list entry),
      schedule group_order test_order (registry_of ds) = E1 ++ c :: E2
      ∧ Forall (λ c : entry, contained c.2 = true) E1
      ∧ ends c.2 = throws e
      ∧ test_calls p' = E1 ++ [c]
      ∧ g_successes p' = N.of_nat (passes E1).
Proof.
  intros Hlt Happ. rewrite test_application_loaded in Happ.
  pose proof (main_outcome bTESTS_NO_LOG group_order test_order
                group_order_perm test_order_perm _ Hlt) as H.
  rewrite Happ in H.
  destruct H as (E1 & c & E2 & HE & Hall & He & Hce & Hcalls & Hs & Hrd & _).
  split_and!; try done.
  - rewrite Hrd. by destruct bTESTS_NO_LOG.
  - by exists E1, c, E2.
Qed.

End RunInvariants.

(** ** The assertion macro, in general *)

Lemma after_last_split c s tail :
  Assert.after_last c s = Some tail →
  ∃ head, s = head +:+ String c tail ∧ Assert.after_last c tail = None.
Proof.
  revert tail. induction s as [|a s IH]; intros tail H; [done|].
  simpl in H. destruct (Assert.after_last c s) as [tail'|] eqn:Hs.
  - injection H as ->. destruct (IH _ eq_refl) as (head & -> & Hnone).
    by exists (String a head).
  - destruct (Ascii.eqb_spec a c) as [->|]; [|done]. injection H as ->.
    by exists EmptyString.
Qed.

(** X13.  For every file name (short enough for its positions to fit
    [size_t]) and every line, an assertion whose condition is false throws a
    [std::exception], the failure signal the runner catches, and never the
    [std::out_of_range] of [substr].  Its text is the end of
    [<file>:<line>]: the whole of it when the file name has no separator,
    and otherwise the part that starts at the last separator of the file
    name, which is then the only separator in the text.  An assertion whose
    condition is true throws nothing. *)
Theorem failed_assertion_raises_failure_signal win32 file line :
  N.of_nat (String.length file) < SizeT.npos →
  Assert.bTEST_ASSERT win32 file line true = returns
  ∧ ∃ what,
      Assert.bTEST_ASSERT win32 file line false = throws (std_exception what)
      ∧ is_failure_signal (std_exception what) = true
      ∧ catch_std_exception (std_exception what) = Some what
      ∧ (∃ cut, file +:+ ":" +:+ Text.to_string line = cut +:+ what)
      ∧ match Assert.after_last (Assert.bFILE_PATH_SEPARATOR win32) file with
        | None => what = file +:+ ":" +:+ Text.to_string line
        | Some base =>
            what = String (Assert.bFILE_PATH_SEPARATOR win32)
                          (base +:+ ":" +:+ Text.to_string line)
            ∧ Assert.after_last (Assert.bFILE_PATH_SEPARATOR win32)
                (base +:+ ":" +:+ Text.to_string line) = None
        end.
Proof.
  intros Hlen. split; [done|]. eexists. split; [by apply bTEST_ASSERT_payload|].
  split_and!; [done|done| |].
  - destruct (Assert.after_last _ file) as [base|] eqn:Hfile.
    + destruct (after_last_split _ _ _ Hfile) as (head & -> & _).
      exists head. by rewrite string_app_assoc.
    + by exists EmptyString.
  - destruct (Assert.after_last _ file) as [base|] eqn:Hfile; [|done].
    split; [done|].
    destruct (after_last_split _ _ _ Hfile) as (head & _ & Hbase).
    by rewrite (after_last_app _ _ _ (after_last_line win32 line)), Hbase.
Qed.

(** ** The first version of the header *)

Ltac unfold_v1_0 :=
  unfold V1_0.print_info, V1_0.print_summary, V1_0.run_test, V1_0.call,
    V1_0.try_catch_std_exception, V1_0.print_line_separator, V1_0.cout,
    V1_0.update, V1_0.read, mbind, mret, V1_0.Stmt_bind, V1_0.Stmt_ret.

Lemma v1_0_passes_cons nt l :
  V1_0.passes (nt :: l) = ((if passing nt.2 then 1 else 0) + V1_0.passes l)%nat.
Proof.
  unfold V1_0.passes. rewrite filter_cons. destruct (passing nt.2); case_decide; done.
Qed.

Lemma v1_0_passes_app l k :
  V1_0.passes (l ++ k) = (V1_0.passes l + V1_0.passes k)%nat.
Proof. unfold V1_0.passes. by rewrite filter_app, length_app. Qed.

Lemma v1_0_passes_le l : (V1_0.passes l ≤ length l)%nat.
Proof. unfold V1_0.passes. apply length_filter. Qed.

Lemma v1_0_run_test_contained idx name test p :
  contained test = true →
  ∃ p', V1_0.run_test idx name test p = V1_0.Done tt p'
        ∧ V1_0.console p'
          = V1_0.console p
            +:+ progress_text idx name +:+ prints test +:+ verdict_text test
        ∧ V1_0.g_successes p'
          = (if passing test then SizeT.succ (V1_0.g_successes p)
             else V1_0.g_successes p)
        ∧ V1_0.test_calls p' = V1_0.test_calls p ++ [(name, test)]
        ∧ V1_0.s_tests p' = V1_0.s_tests p.
Proof.
  intros Hc. unfold verdict_text, passing. destruct p as [reg succ con calls].
  destruct (contained_cases test)
    as [[Hends _]|[(e & what & Hends & Hcatch & _)|(e & _ & _ & Hn)]];
    [| |congruence].
  - unfold_v1_0. rewrite Hends. simpl. eexists. split; [reflexivity|].
    split_and!; try done. text_eq'.
  - unfold_v1_0. rewrite Hends, Hcatch. simpl. eexists. split; [reflexivity|].
    split_and!; try done. text_eq'.
Qed.

Lemma v1_0_run_test_uncaught idx name test e p :
  ends test = throws e →
  catch_std_exception e = None →
  ∃ p', V1_0.run_test idx name test p = V1_0.Unwinding e p'
        ∧ V1_0.g_successes p' = V1_0.g_successes p
        ∧ V1_0.test_calls p' = V1_0.test_calls p ++ [(name, test)]
        ∧ V1_0.s_tests p' = V1_0.s_tests p.
Proof.
  intros Hends Hcatch. destruct p as [reg succ con calls].
  unfold_v1_0. rewrite Hends, Hcatch. simpl. eexists. by split.
Qed.

Lemma v1_0_for_tests_outcome tests idx p :
  match V1_0.for_tests tests idx p with
  | V1_0.Done idx' p' =>
      Forall (λ nt, contained nt.2 = true) tests
      ∧ V1_0.console p' = V1_0.console p +:+ V1_0.tests_console tests idx
      ∧ V1_0.g_successes p' = bumped (V1_0.passes tests) (V1_0.g_successes p)
      ∧ V1_0.test_calls p' = V1_0.test_calls p ++ tests
      ∧ V1_0.s_tests p' = V1_0.s_tests p
  | V1_0.Unwinding e p' =>
      ∃ l1 name test l2,
        tests = l1 ++ (name, test) :: l2
        ∧ Forall (λ nt, contained nt.2 = true) l1
        ∧ ends test = throws e
        ∧ catch_std_exception e = None
        ∧ V1_0.g_successes p' = bumped (V1_0.passes l1) (V1_0.g_successes p)
        ∧ V1_0.test_calls p' = V1_0.test_calls p ++ l1 ++ [(name, test)]
        ∧ V1_0.s_tests p' = V1_0.s_tests p
  end.
Proof.
  revert idx p. induction tests as [|[name test] tests IH]; intros idx p.
  { simpl. split_and!; try done.
    - by rewrite string_app_empty_r.
    - by rewrite app_nil_r. }
  simpl V1_0.for_tests. unfold mbind, V1_0.Stmt_bind.
  destruct (contained test) eqn:Hc.
  - destruct (v1_0_run_test_contained idx name test p Hc)
      as (p1 & -> & Hcon & Hs & Hcalls & Hreg).
    specialize (IH (SizeT.succ idx) p1).
    destruct (V1_0.for_tests tests (SizeT.succ idx) p1) as [idx' p'|e p'].
    + destruct IH as (Hall & Hcon' & Hs' & Hcalls' & Hreg'). split_and!.
      * by constructor.
      * rewrite Hcon', Hcon. simpl. by rewrite !string_app_assoc.
      * rewrite Hs', Hs, v1_0_passes_cons. simpl.
        destruct (passing test); simpl; [|done]. by rewrite bumped_succ_inner.
      * by rewrite Hcalls', Hcalls, <- app_assoc.
      * congruence.
    + destruct IH as (l1 & n & t & l2 & -> & Hall & He & Hce & Hs' & Hcalls' & Hreg').
      exists ((name, test) :: l1), n, t, l2. split_and!; try done.
      * by constructor.
      * rewrite Hs', Hs, v1_0_passes_cons. simpl.
        destruct (passing test); simpl; [|done]. by rewrite bumped_succ_inner.
      * by rewrite Hcalls', Hcalls, <- app_assoc.
      * congruence.
  - destruct (contained_cases test)
      as [[_ ?]|[(? & ? & _ & _ & ?)|(e & Hends & Hcatch & _)]]; [congruence..|].
    destruct (v1_0_run_test_uncaught idx name test e p Hends Hcatch)
      as (p1 & -> & Hs & Hcalls & Hreg).
    exists [], name, test, tests. split_and!; try done.
Qed.

Lemma v1_0_static_init_spec ds p :
  V1_0.static_init ds p
  = V1_0.Done tt (V1_0.with_s_tests
                    (foldl (λ tests d, <[d.1 := d.2]> tests) (V1_0.s_tests p) ds) p).
Proof.
  revert p. induction ds as [|[name func] ds IH]; intros p; simpl.
  - by destruct p.
  - unfold mbind, V1_0.Stmt_bind, V1_0.UnitTest, V1_0.update. rewrite IH.
    by destruct p.
Qed.

Section V1_0_Properties.

Variable test_order : gmap string bTestFnType → list (string * bTestFnType).
Hypothesis test_order_perm : ∀ m, test_order m ≡ₚ map_to_list m.

Lemma v1_0_test_application_loaded ds :
  V1_0.test_application test_order ds
  = V1_0.main test_order (V1_0.loaded (V1_0.registry_of ds)).
Proof.
  unfold V1_0.test_application, mbind, V1_0.Stmt_bind.
  by rewrite v1_0_static_init_spec.
Qed.

Lemma v1_0_length_test_order tests : length (test_order tests) = size tests.
Proof. by rewrite test_order_perm, length_map_to_list. Qed.

Lemma v1_0_print_info_spec p :
  V1_0.print_info p
  = V1_0.Done tt (V1_0.with_console
                    (V1_0.console p
                     +:+ V1_0.info_text (N.of_nat (size (V1_0.s_tests p)))) p).
Proof.
  destruct p as [reg succ con calls]. unfold_v1_0. unfold V1_0.with_console. simpl.
  do 2 f_equal. unfold V1_0.info_text, dashes. by rewrite !string_app_assoc.
Qed.

Lemma v1_0_print_summary_spec p :
  V1_0.print_summary p
  = V1_0.Done tt (V1_0.with_console
                    (V1_0.console p
                     +:+ summary_text (V1_0.g_successes p)
                                      (N.of_nat (size (V1_0.s_tests p)))) p).
Proof.
  destruct p as [reg succ con calls]. unfold_v1_0. unfold V1_0.with_console. simpl.
  do 2 f_equal. unfold summary_text, dashes. by rewrite !string_app_assoc.
Qed.

Lemma v1_0_run_tests_outcome p :
  match V1_0.run_tests test_order p with
  | V1_0.Done _ p' =>
      Forall (λ nt, contained nt.2 = true) (test_order (V1_0.s_tests p))
      ∧ V1_0.console p'
        = V1_0.console p +:+ ("RUNNING TESTS..." +:+ Text.LF)
          +:+ V1_0.tests_console (test_order (V1_0.s_tests p)) 0
      ∧ V1_0.g_successes p'
        = bumped (V1_0.passes (test_order (V1_0.s_tests p))) (V1_0.g_successes p)
      ∧ V1_0.test_calls p' = V1_0.test_calls p ++ test_order (V1_0.s_tests p)
      ∧ V1_0.s_tests p' = V1_0.s_tests p
  | V1_0.Unwinding e p' =>
      ∃ l1 name test l2,
        test_order (V1_0.s_tests p) = l1 ++ (name, test) :: l2
        ∧ Forall (λ nt, contained nt.2 = true) l1
        ∧ ends test = throws e
        ∧ catch_std_exception e = None
        ∧ V1_0.g_successes p' = bumped (V1_0.passes l1) (V1_0.g_successes p)
        ∧ V1_0.test_calls p' = V1_0.test_calls p ++ l1 ++ [(name, test)]
        ∧ V1_0.s_tests p' = V1_0.s_tests p
  end.
Proof.
  unfold V1_0.run_tests, V1_0.cout, V1_0.update, V1_0.read, mbind, mret,
    V1_0.Stmt_bind, V1_0.Stmt_ret.
  set (p1 := V1_0.with_console _ p).
  assert (V1_0.s_tests p1 = V1_0.s_tests p
          ∧ V1_0.console p1 = V1_0.console p +:+ ("RUNNING TESTS..." +:+ Text.LF)
          ∧ V1_0.g_successes p1 = V1_0.g_successes p
          ∧ V1_0.test_calls p1 = V1_0.test_calls p) as (Hreg & Hcon & Hs & Hcalls)
    by done.
  rewrite Hreg.
  pose proof (v1_0_for_tests_outcome (test_order (V1_0.s_tests p)) 0 p1) as H.
  destruct (V1_0.for_tests _ 0 p1) as [idx p2|e p2].
  - destruct H as (Hall & Hcon' & Hs' & Hcalls' & Hreg').
    split_and!;
      [done|by rewrite Hcon', Hcon, string_app_assoc|by rewrite Hs', Hs
      |by rewrite Hcalls', Hcalls|congruence].
  - destruct H as (l1 & name & test & l2 & Hl & Hall & He & Hce & Hs' & Hcalls' & Hreg').
    exists l1, name, test, l2. split_and!; try done; congruence.
Qed.

Lemma v1_0_main_outcome tests :
  N.of_nat (size tests) < SizeT.modulus →
  match V1_0.main test_order (V1_0.loaded tests) with
  | V1_0.Done code p' =>
      Forall (λ nt, contained nt.2 = true) (test_order tests)
      ∧ V1_0.test_calls p' = test_order tests
      ∧ V1_0.g_successes p' = N.of_nat (V1_0.passes (test_order tests))
      ∧ code = (if bool_decide (V1_0.passes (test_order tests) = size tests)
                then ReturnValue.pass else ReturnValue.fail)
      ∧ V1_0.s_tests p' = tests
      ∧ (tests ≠ ∅ →
         V1_0.console p'
         = V1_0.info_text (N.of_nat (size tests))
           +:+ ("RUNNING TESTS..." +:+ Text.LF)
           +:+ V1_0.tests_console (test_order tests) 0
           +:+ summary_text (N.of_nat (V1_0.passes (test_order tests)))
                            (N.of_nat (size tests)))
  | V1_0.Unwinding e p' =>
      ∃ l1 name test l2,
        test_order tests = l1 ++ (name, test) :: l2
        ∧ Forall (λ nt, contained nt.2 = true) l1
        ∧ ends test = throws e
        ∧ catch_std_exception e = None
        ∧ V1_0.test_calls p' = l1 ++ [(name, test)]
        ∧ V1_0.g_successes p' = N.of_nat (V1_0.passes l1)
  end.
Proof.
  intros Hlt. pose proof (v1_0_length_test_order tests) as Hlen.
  unfold V1_0.main, V1_0.read, mbind, mret, V1_0.Stmt_bind, V1_0.Stmt_ret.
  rewrite v1_0_print_info_spec. set (p1 := V1_0.with_console _ _).
  assert (V1_0.s_tests p1 = tests ∧ V1_0.g_successes p1 = 0
          ∧ V1_0.test_calls p1 = []
          ∧ V1_0.console p1 = V1_0.info_text (N.of_nat (size tests)))
    as (Hreg & Hsucc & Hcalls & Hcon) by done.
  rewrite Hreg.
  destruct (N.eqb_spec (N.of_nat (size tests)) 0) as [Hz|Hnz].
  { assert (tests = ∅) as Hempty by (apply map_size_empty_iff; lia).
    assert (test_order tests = []) as Hnil.
    { pose proof (test_order_perm tests) as H. rewrite Hempty, map_to_list_empty in H.
      apply Permutation_nil_r in H. by rewrite Hempty. }
    rewrite Hnil. split_and!; try done. by rewrite Hempty. }
  pose proof (v1_0_run_tests_outcome p1) as H. rewrite Hreg in H.
  destruct (V1_0.run_tests test_order p1) as [[] p2|e p2].
  - destruct H as (Hall & Hcon2 & Hs2 & Hcalls2 & Hreg2).
    rewrite v1_0_print_summary_spec. set (p3 := V1_0.with_console _ p2).
    pose proof (v1_0_passes_le (test_order tests)) as Hle.
    assert (V1_0.g_successes p2 = N.of_nat (V1_0.passes (test_order tests))) as Hs2'.
    { rewrite Hs2, Hsucc, bumped_small by lia. lia. }
    assert (V1_0.s_tests p2 = tests) as Hreg2' by congruence.
    assert (V1_0.s_tests p3 = V1_0.s_tests p2
            ∧ V1_0.g_successes p3 = V1_0.g_successes p2
            ∧ V1_0.test_calls p3 = V1_0.test_calls p2
            ∧ V1_0.console p3
              = V1_0.console p2
                +:+ summary_text (V1_0.g_successes p2)
                                 (N.of_nat (size (V1_0.s_tests p2))))
      as (Hreg3 & Hs3 & Hcalls3 & Hcon3) by done.
    rewrite Hreg3, Hs3, Hs2', Hreg2'. split_and!.
    + done.
    + by rewrite Hcalls3, Hcalls2, Hcalls.
    + done.
    + case_bool_decide as Hd.
      * by rewrite Hd, N.eqb_refl.
      * destruct (N.eqb_spec (N.of_nat (V1_0.passes (test_order tests)))
                    (N.of_nat (size tests))); [lia|done].
    + done.
    + intros _. rewrite Hcon3, Hcon2, Hcon, Hs2', Hreg2'.
      by rewrite !string_app_assoc.
  - destruct H as (l1 & name & test & l2 & Hl & Hall & He & Hce & Hs & Hcalls2 & _).
    exists l1, name, test, l2.
    split_and!; [done|done|done|done|by rewrite Hcalls2, Hcalls|].
    rewrite Hs, Hsucc. pose proof (v1_0_passes_le l1) as Hle.
    rewrite Hl, length_app in Hlen. simpl in Hlen.
    rewrite bumped_small by lia. lia.
Qed.

Lemma v1_0_registry_of_snoc ds d :
  V1_0.registry_of (ds ++ [d]) = <[d.1 := d.2]> (V1_0.registry_of ds).
Proof. unfold V1_0.registry_of. by rewrite foldl_snoc. Qed.

Lemma v1_0_registry_of_empty ds : V1_0.registry_of ds = ∅ ↔ ds = [].
Proof.
  split; [|by intros ->].
  destruct ds as [|d ds _] using rev_ind; [done|].
  rewrite v1_0_registry_of_snoc. intros H. by apply insert_non_empty in H.
Qed.

(** X14.  In the first version of the header, for a program with at least
    one test in which every call returns or is caught, [main] returns; the
    console then holds the information block, the heading, and for each test
    its progress text, then whatever the test itself printed, then its
    verdict, and the summary block: the output of the tests is mixed into
    the report.  The value returned is 0 exactly when the number of calls
    that returned is the number of tests, and -1 otherwise. *)
Theorem v1_0_test_output_is_mixed_into_report ds :
  N.of_nat (size (V1_0.registry_of ds)) < SizeT.modulus →
  ds ≠ [] →
  Forall (λ nt, contained nt.2 = true) (test_order (V1_0.registry_of ds)) →
  ∃ code p',
    V1_0.test_application test_order ds = V1_0.Done code p'
    ∧ V1_0.console p'
      = V1_0.info_text (N.of_nat (size (V1_0.registry_of ds)))
        +:+ ("RUNNING TESTS..." +:+ Text.LF)
        +:+ V1_0.tests_console (test_order (V1_0.registry_of ds)) 0
        +:+ summary_text
              (N.of_nat (V1_0.passes (test_order (V1_0.registry_of ds))))
              (N.of_nat (size (V1_0.registry_of ds)))
    ∧ V1_0.g_successes p'
      = N.of_nat (V1_0.passes (test_order (V1_0.registry_of ds)))
    ∧ V1_0.test_calls p' = test_order (V1_0.registry_of ds)
    ∧ (code = ReturnValue.pass
       ↔ V1_0.g_successes p' = N.of_nat (size (V1_0.registry_of ds)))
    ∧ (code ≠ ReturnValue.pass → code = ReturnValue.fail).
Proof.
  intros Hlt Hne Hall. rewrite v1_0_test_application_loaded.
  pose proof (v1_0_main_outcome _ Hlt) as H.
  destruct (V1_0.main test_order _) as [code p'|e p'].
  - destruct H as (_ & Hcalls & Hs & Hcode & _ & Hcon).
    exists code, p'. split; [done|].
    pose proof (v1_0_passes_le (test_order (V1_0.registry_of ds))) as Hle.
    rewrite v1_0_length_test_order in Hle.
    split_and!; try done.
    + apply Hcon. intros Hempty. by apply v1_0_registry_of_empty in Hempty.
    + rewrite Hs, Hcode. case_bool_decide as Hd; split; try done.
      * intros _. by rewrite Hd.
      * intros Heq. lia.
    + rewrite Hcode. by case_bool_decide.
  - destruct H as (l1 & name & test & l2 & Hl & _ & He & Hce & _).
    rewrite Hl in Hall. apply Forall_app in Hall as [_ Hc].
    apply Forall_cons in Hc as [Hc _]. unfold contained in Hc. simpl in Hc.
    rewrite He, Hce in Hc. apply bool_decide_eq_true in Hc as [? ?]. done.
Qed.

End V1_0_Properties.

(** ** The first version and the current one *)





Section Versions.

Variable bTESTS_NO_LOG : bool.
Variable group_order :
  gmap string (gmap string bTestFnType) → list (string * gmap string bTestFnType).
Variable test_order : gmap string bTestFnType → list (string * bTestFnType).
Hypothesis group_order_perm : ∀ m, group_order m ≡ₚ map_to_list m.
Hypothesis test_order_perm : ∀ m, test_order m ≡ₚ map_to_list m.




End Versions.

(** ** The further properties on the sample programs *)

Lemma start_up_order_witness :
  ∃ p p',
    static_init Samples.program fresh_process = Done tt p
    ∧ static_init (reverse Samples.program) fresh_process = Done tt p'
    ∧ registry_lookup (s_tests p) "example group" "parses"
      = registry_lookup (s_tests p') "example group" "parses".
Proof.
  destruct (start_up_order_is_irrelevant Samples.program (reverse Samples.program))
    as (p & p' & Hinit & Hinit' & Hlookup & _).
  - apply (bool_decide_unpack _). by vm_compute.
  - symmetry. apply reverse_Permutation.
  - exists p, p'. split_and!; [exact Hinit|exact Hinit'|apply Hlookup].
Defined.

Lemma total_witness :
  ∃ p p',
    static_init MoreSamples.program_with_repeat fresh_process = Done tt p
    ∧ get_number_of_tests map_to_list p = Done 4 p'.
Proof.
  destruct (total_is_number_of_distinct_pairs map_to_list
              (λ m, map_to_list_order m) MoreSamples.program_with_repeat)
    as (p & p' & Hinit & Hget & _).
  - by vm_compute.
  - exists p, p'. split; [exact Hinit|]. rewrite Hget. by vm_compute.
Defined.

Lemma computed_once_witness :
  ∃ p1,
    get_number_of_tests map_to_list (loaded Samples.registry) = Done 4 p1
    ∧ (UnitTest "late" Samples.one_is_odd "late group" ;; get_number_of_tests map_to_list)
        p1
      = Done 4 (with_s_tests
                  (register "late" Samples.one_is_odd "late group" Samples.registry) p1).
Proof.
  destruct (get_number_of_tests_is_computed_once map_to_list
              (λ m, map_to_list_order m) (loaded Samples.registry))
    as (p1 & Hfirst & _ & _ & Hlate); [by vm_compute..|].
  exists p1. split; [exact Hfirst|].
  exact (Hlate "late" Samples.one_is_odd "late group").
Defined.

Lemma print_summary_witness :
  ∃ p1,
    print_summary false map_to_list MoreSamples.informed = Done tt p1
    ∧ g_testsLog p1 = g_testsLog MoreSamples.informed +:+ summary_text 0 4
    ∧ cout_rdbuf p1 = console_buf.
Proof.
  destruct (print_summary_reports_to_both_channels false map_to_list
              MoreSamples.informed)
    as (p1 & p2 & Hrun & _ & Hlog & _ & Hrd & _); [by vm_compute..|].
  exists p1. split_and!; [exact Hrun|exact Hlog|exact Hrd].
Defined.

Lemma run_tests_transcript_witness :
  ∃ p',
    run_tests false map_to_list map_to_list (loaded Samples.registry) = Done tt p'
    ∧ cout_rdbuf p' = console_buf
    ∧ Text.occurs "Some output" (console p') = false
    ∧ Text.occurs "Some output" (g_testsLog p') = true.
Proof.
  destruct (run_tests_transcript false map_to_list map_to_list (loaded Samples.registry))
    as (p' & Hrun & Hcon & Hlog & _ & Hrd).
  - vm_compute. repeat constructor.
  - vm_compute. repeat constructor.
  - reflexivity.
  - exists p'. split_and!; [exact Hrun|exact Hrd| |].
    + rewrite Hcon. by vm_compute.
    + rewrite Hlog. by vm_compute.
Defined.


Lemma application_transcript_witness :
  ∃ code p',
    test_application false map_to_list map_to_list Samples.program = Done code p'
    ∧ Text.occurs "Passed 2 out of 4 tests." (console p') = true
    ∧ Text.occurs "Some output" (console p') = false
    ∧ Text.occurs "Some output" (g_testsLog p') = true
    ∧ Text.occurs "Passed 2 out of 4 tests." (g_testsLog p') = true.
Proof.
  destruct (application_transcript false map_to_list map_to_list
              (λ m, map_to_list_order m) (λ m, map_to_list_order m) Samples.program)
    as (code & p' & Happ & Hcon & Hlog & _).
  - vm_compute. reflexivity.
  - discriminate.
  - vm_compute. repeat constructor.
  - vm_compute. repeat constructor.
  - exists code, p'. rewrite Hcon, Hlog.
    split; [exact Happ|]. vm_compute. repeat split.
Defined.

Lemma aborted_run_witness :
  ∃ e p',
    test_application false map_to_list map_to_list MoreSamples.aborted_program
    = Unwinding e p'
    ∧ catch_std_exception e = None
    ∧ cout_rdbuf p' = log_buf.
Proof.
  assert (∃ e p', test_application false map_to_list map_to_list
                    MoreSamples.aborted_program = Unwinding e p') as (e & p' & Happ).
  { eexists _, _. by vm_compute. }
  destruct (capture_is_not_released_when_run_is_aborted false map_to_list map_to_list
              (λ m, map_to_list_order m) (λ m, map_to_list_order m)
              MoreSamples.aborted_program e p')
    as (He & Hrd & _).
  - vm_compute. reflexivity.
  - exact Happ.
  - exists e, p'. exact (conj Happ (conj He Hrd)).
Defined.

Lemma failed_assertion_witness :
  ∃ what,
    Assert.bTEST_ASSERT false "tests/test_1.cpp" 12 false = throws (std_exception what)
    ∧ ∃ cut, "tests/test_1.cpp" +:+ ":" +:+ Text.to_string 12 = cut +:+ what.
Proof.
  destruct (failed_assertion_raises_failure_signal false "tests/test_1.cpp" 12)
    as (_ & what & Hthrow & _ & _ & Hcut & _).
  - by vm_compute.
  - exists what. split; [exact Hthrow|exact Hcut].
Defined.

Lemma first_version_witness :
  ∃ code p',
    V1_0.test_application map_to_list MoreSamples.first_version_program
    = V1_0.Done code p'
    ∧ Text.occurs "Some output" (V1_0.console p') = true
    ∧ code = ReturnValue.fail.
Proof.
  destruct (v1_0_test_output_is_mixed_into_report map_to_list
              (λ m, map_to_list_order m) MoreSamples.first_version_program)
    as (code & p' & Happ & Hcon & Hs & _ & Hpass & Hfail).
  - by vm_compute.
  - discriminate.
  - vm_compute. repeat constructor.
  - exists code, p'. split_and!; [exact Happ| |].
    + rewrite Hcon. by vm_compute.
    + apply Hfail. intros Hp. apply Hpass in Hp. rewrite Hs in Hp.
      by vm_compute in Hp.
Defined.

